(** * Infinity_Inspector: the normalisation pipeline of [loader.py]

    A shallow embedding of the part of [loader.py] that turns a faction
    document into a flat table: identifier resolution ([id_to_name] and the
    three [convert_*_ids] passes), the cascading [explode] of profile groups,
    options and profiles, the category-code mapping and the order counters.

    Python values are typed by the vendor schema; where the source reads a
    key with [d.get] or tests truthiness, the absent and the falsy cases are
    part of the model. pandas operations are written out as list functions,
    and every exception the source can raise is a value of [pyexn]. Where
    pandas versions differ the model follows pandas 1.x and 2.x: strings are
    held in object columns, and an assignment a column's dtype cannot hold
    upcasts the column (pandas 3.x raises [TypeError] there). Paths are
    POSIX paths. *)

From stdpp Require Import gmap strings list.
From Stdlib Require Import ZArith Ascii.

Open Scope string_scope.
Open Scope list_scope.
Open Scope Z_scope.

(** ** Exceptions and results *)

(** The exception classes the pipeline can raise. [loader.py] declares no
    exception class of its own: [UserDefined] stands for such a class and no
    definition below raises it. *)
Inductive pyexn :=
  | AttributeError
  | IndexError
  | KeyError
  | TypeError
  | ValueError
  | OverflowError
  | UserDefined (cls : string).

Inductive result (A : Type) :=
  | Ok (a : A)
  | Raise (e : pyexn).
Arguments Ok {A} a.
Arguments Raise {A} e.

#[global] Instance result_ret : MRet result := λ A a, Ok a.
#[global] Instance result_bind : MBind result := λ A B f m,
  match m with
  | Ok a => f a
  | Raise e => Raise e
  end.

#[global] Instance pyexn_eq_dec : EqDecision pyexn.
Proof. solve_decision. Defined.

Definition is_ok {A} (r : result A) : bool :=
  match r with Ok _ => true | Raise _ => false end.

(** ** JSON values held by a reference *)

(** The value of a key of a reference object: [null], an integer, or a list
    of integers (the [extra] ids). *)
Inductive pyval :=
  | PyNone
  | PyInt (z : Z)
  | PyList (l : list Z).

#[global] Instance pyval_eq_dec : EqDecision pyval.
Proof. solve_decision. Defined.

(** Python truthiness, [bool(v)]. *)
Definition truthy_val (v : pyval) : bool :=
  match v with
  | PyNone => false
  | PyInt z => negb (z =? 0)
  | PyList l => negb (bool_decide (l = []))
  end.

(** One slot of an id list: [None] (JSON [null]) or a dict. *)
Abbreviation entry := (option (gmap string pyval)).

(** [if id:] - [None] and the empty dict are falsy, every other dict is
    truthy whatever its keys hold. *)
Definition truthy (e : entry) : bool :=
  match e with
  | None => false
  | Some d => negb (bool_decide (d = ∅))
  end.

(** [e[k]]: [None] is not subscriptable, a dict without the key raises
    [KeyError]. *)
Definition getitem (e : entry) (k : string) : result pyval :=
  match e with
  | None => Raise TypeError
  | Some d =>
      match d !! k with
      | Some v => Ok v
      | None => Raise KeyError
      end
  end.

(** [k in e]. *)
Definition contains (e : entry) (k : string) : result bool :=
  match e with
  | None => Raise TypeError
  | Some d => Ok (bool_decide (is_Some (d !! k)))
  end.

(** ** Catalogs: data frames with an [id] and a [name] column *)

Record CatalogEntry := { entry_id : Z; entry_name : string }.

#[global] Instance CatalogEntry_eq_dec : EqDecision CatalogEntry.
Proof. solve_decision. Defined.

(** [df['id']]: a frame built from the empty list has no columns at all. *)
Definition column_id (df : list CatalogEntry) : result (list Z) :=
  match df with
  | [] => Raise KeyError
  | _ => Ok (entry_id <$> df)
  end.

(** [series == v]: element-wise against a scalar, every element [False]
    against [None], aligned position by position against a list (whose
    length must be that of the series). *)
Definition series_eq (col : list Z) (v : pyval) : result (list bool) :=
  match v with
  | PyNone => Ok ((λ _, false) <$> col)
  | PyInt z => Ok ((λ c, c =? z) <$> col)
  | PyList l =>
      if decide (length l = length col)
      then Ok (zip_with Z.eqb col l)
      else Raise ValueError
  end.

(** [series.isin(v)]: only a list-like is accepted. *)
Definition isin (col : list Z) (v : pyval) : result (list bool) :=
  match v with
  | PyList l => Ok ((λ c, bool_decide (c ∈ l)) <$> col)
  | _ => Raise TypeError
  end.

(** [df[mask]['name'].tolist()]: the names of the rows the mask keeps, in
    frame order. *)
Fixpoint select_names (mask : list bool) (df : list CatalogEntry) : list string :=
  match mask, df with
  | b :: mask', c :: df' =>
      if b then entry_name c :: select_names mask' df' else select_names mask' df'
  | _, _ => []
  end.

(** [l[0]]. *)
Definition first_item (l : list string) : result string :=
  match l with
  | [] => Raise IndexError
  | x :: _ => Ok x
  end.

(** ** Iteration order of a set of strings *)

(** [list(set(xs))] lists each distinct element of [xs] once, in the order
    of the set's hash table. String hashes are seeded per interpreter
    process, so the order is a parameter of a run. *)
Record set_order := {
  set_to_list :> list string → list string;
  set_to_list_NoDup : ∀ xs, NoDup (set_to_list xs);
  set_to_list_elem : ∀ xs x, x ∈ set_to_list xs ↔ x ∈ xs
}.

(** ** [id_to_name] *)

Section IdResolver.
Context (order : set_order).
Variables lookup extras_lookup : list CatalogEntry.

(** Line 224: [list(set(lookup[lookup['id'] == id['id']]['name'].tolist()))]. *)
Definition matching_names (e : entry) : result (list string) :=
  col ← column_id lookup;
  v ← getitem e "id";
  mask ← series_eq col v;
  Ok (order (select_names mask lookup)).

(** Lines 225-229: the parenthesised names of the extras. *)
Definition extras_of (e : entry) : result (list string) :=
  has_extra ← contains e "extra";
  if (has_extra : bool) then
    v ← getitem e "extra";
    if truthy_val v then
      col ← column_id extras_lookup;
      mask ← isin col v;
      Ok ((λ extra, "(" +:+ extra +:+ ")") <$> select_names mask extras_lookup)
    else Ok []
  else Ok [].

(** The body of the loop for a truthy slot, up to the string that is
    appended (line 230). *)
Definition full_name (e : entry) : result string :=
  name ← matching_names e;
  extras ← extras_of e;
  name0 ← first_item name;
  Ok (name0 +:+ String.concat "" extras).

Fixpoint id_to_name_loop (id_list : list entry) (full_names : list string)
  : result (list string) :=
  match id_list with
  | [] => Ok full_names
  | e :: rest =>
      if truthy e
      then n ← full_name e; id_to_name_loop rest (full_names ++ [n])
      else id_to_name_loop rest full_names
  end.

Definition id_to_name (id_list : list entry) : result (list string) :=
  id_to_name_loop id_list [].

End IdResolver.

(** ** The faction document *)

(** A scalar cell: [None], an integer or a string ([swc] is a string such
    as ["0.5"] or ["-"] in the vendor data). *)
Inductive scalar :=
  | SNone
  | SInt (z : Z)
  | SStr (s : string).

Record Order := { o_type : string; o_total : Z }.

(** What lines 320-327 read from an option with [d.get]: a key that is
    absent reads as [None]. *)
Record UnitOption := {
  points : scalar;
  swc : scalar;
  option_skills : option (list entry);
  orders : option (list Order);
  option_weapons : option (list entry);
  option_equipment : option (list entry)
}.

(** What lines 329-331 read from a profile; [stats] holds the attribute
    keys that are only carried through ([arm], [ava], [bs], [bts], [cc],
    [move], [ph], [s], [str], [w], [wip], [peripheral], [chars]). *)
Record Profile := {
  skills_id : option (list entry);
  weapons_id : option (list entry);
  equip_id : option (list entry);
  type_id : option Z;
  stats : gmap string scalar
}.

Record ProfileGroup := {
  options : list UnitOption;
  profiles : list Profile
}.

Record Unit := {
  unit_name : option string;
  profileGroups : list ProfileGroup
}.

(** ** [explode] and [add_column_from_dict_value] *)

(** A cell of an exploded column: an element of the list, or the [NaN]
    that pandas puts in the single row it keeps for an empty list. *)
Inductive cell (A : Type) :=
  | NaN
  | Val (a : A).
Arguments NaN {A}.
Arguments Val {A} a.

(** [df.explode(column, ignore_index=True)]: one row per element of the
    list in [column], the other columns repeated; an empty list gives one
    row holding [NaN]. *)
Definition explode {R A} (column : R → list A) (df : list R) : list (R * cell A) :=
  r ← df;
  match column r with
  | [] => [(r, NaN)]
  | xs => (λ a, (r, Val a)) <$> xs
  end.

(** [d.get(key)] on a cell: [NaN] is a float and has no [get]. *)
Definition dict_get {D V} (d : cell D) (key : D → V) : result V :=
  match d with
  | NaN => Raise AttributeError
  | Val d => Ok (key d)
  end.

(** [add_column_from_dict_value]: the comprehension
    [[d.get(key) for d in source_df[column]]] runs over every row before
    the column is assigned. The calls that follow one [explode] all read
    the same column, so they are taken together: the record [D] holds the
    values of all their keys. *)
Definition add_column_from_dict_value {R D} (source_df : list (R * cell D))
  : result (list (R * D)) :=
  mapM (λ row, d ← dict_get row.2 (λ d, d); Ok (row.1, d)) source_df.

(** A row after line 331. *)
Abbreviation Row := (Unit * ProfileGroup * UnitOption * Profile)%type.

Definition row_unit (row : Row) : Unit := row.1.1.1.
Definition row_group (row : Row) : ProfileGroup := row.1.1.2.
Definition row_option (row : Row) : UnitOption := row.1.2.
Definition row_profile (row : Row) : Profile := row.2.

(** Lines 302-331 of [load_army_data_to_dataframes]. A frame built from an
    empty unit list has no [profileGroups] column to explode. *)
Definition flatten (units : list Unit) : result (list Row) :=
  match units with
  | [] => Raise KeyError
  | _ =>
      let army_df := explode profileGroups units in
      army_df ← add_column_from_dict_value army_df;
      let army_df := explode (λ row, options row.2) army_df in
      army_df ← add_column_from_dict_value army_df;
      let army_df := explode (λ row, profiles row.1.2) army_df in
      add_column_from_dict_value army_df
  end.

(** ** The three [convert_*_ids] passes *)

Section ColumnFinalizer.
Context (order : set_order).

(** [id_to_name(row[col])]: iterating a cell that holds [None] raises
    [TypeError]. *)
Definition id_to_name_cell (lookup extras_lookup : list CatalogEntry)
    (id_list : option (list entry)) : result (list string) :=
  match id_list with
  | None => Raise TypeError
  | Some id_list => id_to_name order lookup extras_lookup id_list
  end.

(** [army_df[col] = army_df.apply(f1, axis=1) + army_df.apply(f2, axis=1)]:
    the first [apply] visits every row before the second starts; [+] on
    the two series of lists concatenates row by row. On a frame without
    rows [apply] calls neither function and gives back a frame, not a
    series, and assigning that frame to the one column raises
    [ValueError]. *)
Definition apply_plus_apply (f1 f2 : Row → result (list string)) (army_df : list Row)
  : result (list (list string)) :=
  match army_df with
  | [] => Raise ValueError
  | _ =>
      left ← mapM f1 army_df;
      right ← mapM f2 army_df;
      Ok (zip_with app left right)
  end.

Definition convert_skill_ids (army_df : list Row) (skills_df extras_df : list CatalogEntry)
  : result (list (list string)) :=
  let id_to_skill := id_to_name_cell skills_df extras_df in
  apply_plus_apply (λ row, id_to_skill (skills_id (row_profile row)))
                   (λ row, id_to_skill (option_skills (row_option row))) army_df.

Definition convert_weapon_ids (army_df : list Row) (weapons_df extras_df : list CatalogEntry)
  : result (list (list string)) :=
  let id_to_weapon := id_to_name_cell weapons_df extras_df in
  apply_plus_apply (λ row, id_to_weapon (weapons_id (row_profile row)))
                   (λ row, id_to_weapon (option_weapons (row_option row))) army_df.

Definition convert_equipment_ids (army_df : list Row) (equipment_df extras_df : list CatalogEntry)
  : result (list (list string)) :=
  let id_to_equipment := id_to_name_cell equipment_df extras_df in
  apply_plus_apply (λ row, id_to_equipment (equip_id (row_profile row)))
                   (λ row, id_to_equipment (option_equipment (row_option row))) army_df.

End ColumnFinalizer.

(** ** [convert_type_ids] *)

Definition type_id_to_name : gmap Z string :=
  <[1 := "LI"]> (<[2 := "MI"]> (<[3 := "HI"]> (<[4 := "TAG"]>
  (<[5 := "REM"]> (<[6 := "SK"]> (<[7 := "WB"]> ∅)))))).

(** [type_id_to_name[code]]. *)
Definition type_label (code : Z) : result string :=
  match type_id_to_name !! code with
  | Some label => Ok label
  | None => Raise KeyError
  end.

(** The new [type] column; a profile without a [type] key is looked up
    as [None], which is no key of the dict either. *)
Definition convert_type_ids (army_df : list Row) : result (list string) :=
  mapM (λ row, match type_id (row_profile row) with
               | Some code => type_label code
               | None => Raise KeyError
               end) army_df.

(** ** Order counters *)

(** [sum(xs)]: the built-in starts from [0] and adds from the left. *)
Definition py_sum (xs : list Z) : Z := foldl Z.add 0 xs.

(** [[order['total'] for order in orders_list if order['type'] == order_type]]. *)
Fixpoint totals_of_type (orders_list : list Order) (order_type : string) : list Z :=
  match orders_list with
  | [] => []
  | order :: rest =>
      if String.eqb (o_type order) order_type
      then o_total order :: totals_of_type rest order_type
      else totals_of_type rest order_type
  end.

Definition get_orders_of_type (orders_list : list Order) (order_type : string) : Z :=
  py_sum (totals_of_type orders_list order_type).

(** [df.apply(lambda row: get_orders_of_type(row['orders'], order_type), axis=1)]:
    a row whose option has no [orders] key holds [None], which cannot be
    iterated. *)
Definition order_column (order_type : string) (df : list Row) : result (list Z) :=
  mapM (λ row, match orders (row_option row) with
               | Some orders_list => Ok (get_orders_of_type orders_list order_type)
               | None => Raise TypeError
               end) df.

(** The four order columns, in the order the source assigns them; the
    comprehension builds one column per order type, each over all rows. *)
Definition add_order_columns (df : list Row) : result (list (Z * Z * Z * Z)) :=
  order_cols ← mapM (λ order_type, order_column order_type df)
                    ["REGULAR"; "IRREGULAR"; "IMPETUOUS"; "LIEUTENANT"];
  match order_cols with
  | [regular; irregular; impetuous; lieutenant] =>
      Ok (zip (zip (zip regular irregular) impetuous) lieutenant)
  | _ => Raise IndexError
  end.

(** ** Sample data *)

Definition insertion_order : set_order.
Proof.
  refine {| set_to_list := remove_dups |}.
  - apply NoDup_remove_dups.
  - apply elem_of_remove_dups.
Defined.

Definition reversed_order : set_order.
Proof.
  refine {| set_to_list := λ xs, reverse (remove_dups xs) |}.
  - intros xs. rewrite reverse_Permutation. apply NoDup_remove_dups.
  - intros xs x. rewrite elem_of_reverse. apply elem_of_remove_dups.
Defined.

Definition ref_of (kvs : list (string * pyval)) : entry := Some (list_to_map kvs).

Definition cat (i : Z) (n : string) : CatalogEntry := {| entry_id := i; entry_name := n |}.

Definition sample_option (pts : Z) (granted : list entry) : UnitOption :=
  {| points := SInt pts; swc := SStr "-";
     option_skills := Some granted;
     orders := Some [{| o_type := "REGULAR"; o_total := 1 |}];
     option_weapons := Some []; option_equipment := Some [] |}.

Definition sample_profile (code : Z) : Profile :=
  {| skills_id := Some [ref_of [("id", PyInt 5)]];
     weapons_id := Some [ref_of [("id", PyInt 9); ("extra", PyList [1])]; None];
     equip_id := Some [];
     type_id := Some code;
     stats := ∅ |}.

Definition sample_unit (groups : list ProfileGroup) : Unit :=
  {| unit_name := Some "FUSILIERS"; profileGroups := groups |}.

(** ** [DataFramePlus]: masks over the name columns *)

(** [value in names]: the elements are compared with [==], first to last. *)
Definition py_in (value : string) (names : list string) : bool :=
  existsb (String.eqb value) names.

Section DataFramePlus.
Context {R : Type}.
(** The three list columns of a loaded frame, read from a row. *)
Variables (skills_column equipment_column weapons_column : R → list string).

(** [self.apply(lambda x: value in x[column], axis=1)]: one boolean per
    row. *)
Definition has (column : R → list string) (value : string) (self : list R) : list bool :=
  (λ x, py_in value (column x)) <$> self.

Definition has_weapon (value : string) (self : list R) : list bool :=
  has weapons_column value self.

Definition has_skill (value : string) (self : list R) : list bool :=
  has skills_column value self.

Definition has_equipment (value : string) (self : list R) : list bool :=
  has equipment_column value self.

End DataFramePlus.

(** ** Rows without a name (lines 342-343) *)

(** What line 342 leaves of a row: every column overwritten with [''], or
    the row as it was. *)
Inductive blanked (P : Type) :=
  | Blank
  | Kept (p : P).
Arguments Blank {P}.
Arguments Kept {P} p.

(** [army_df[army_df["name"].isna()] = ''] under pandas 1.x and 2.x: a
    row whose name is missing gets [''] in every column, its name included,
    a column of another dtype being upcast to object to hold it. pandas 3.x
    refuses the upcast and raises [TypeError] when such a row meets a
    numeric column; that behaviour is not part of this definition. *)
Definition blank_unnamed {P} (army_df : list (option string * P))
  : list (string * blanked P) :=
  (λ row, match row.1 with
          | None => ("", Blank)
          | Some name => (name, Kept row.2)
          end) <$> army_df.

(** [army_df[army_df['name'] != '']]. *)
Definition drop_empty_names {P} (army_df : list (string * blanked P))
  : list (string * blanked P) :=
  filter (λ row, row.1 ≠ "") army_df.

Definition discard_unnamed_rows {P} (army_df : list (option string * P))
  : list (string * blanked P) :=
  drop_empty_names (blank_unnamed army_df).

(** ** The swc column (lines 345-346) *)





Definition to_lower (c : ascii) : ascii :=
  if (65 <=? N_of_ascii c)%N && (N_of_ascii c <=? 90)%N
  then ascii_of_N (N_of_ascii c + 32) else c.















(** ** File download *)

Definition get_file_list : gmap string string :=
  list_to_map [
    ("metadata", "https://api.corvusbelli.com/army/infinity/en/metadata");
    ("yu_jing", "https://api.corvusbelli.com/army/units/en/201");
    ("imperial_service", "https://api.corvusbelli.com/army/units/en/202");
    ("invincible_army", "https://api.corvusbelli.com/army/units/en/204");
    ("white_banner", "https://api.corvusbelli.com/army/units/en/205");
    ("pan_oceania", "https://api.corvusbelli.com/army/units/en/101");
    ("shock_army", "https://api.corvusbelli.com/army/units/en/102");
    ("military_orders", "https://api.corvusbelli.com/army/units/en/103");
    ("nca", "https://api.corvusbelli.com/army/units/en/104");
    ("varuna", "https://api.corvusbelli.com/army/units/en/105");
    ("winter_force", "https://api.corvusbelli.com/army/units/en/106");
    ("ariadna", "https://api.corvusbelli.com/army/units/en/301");
    ("cha", "https://api.corvusbelli.com/army/units/en/302");
    ("merovingienne", "https://api.corvusbelli.com/army/units/en/303");
    ("us_ariadna", "https://api.corvusbelli.com/army/units/en/304");
    ("tac", "https://api.corvusbelli.com/army/units/en/305");
    ("kosmoflot", "https://api.corvusbelli.com/army/units/en/306");
    ("haqqislam", "https://api.corvusbelli.com/army/units/en/401");
    ("hassassin", "https://api.corvusbelli.com/army/units/en/402");
    ("qapu_khalqi", "https://api.corvusbelli.com/army/units/en/403");
    ("ramah", "https://api.corvusbelli.com/army/units/en/404");
    ("nomads", "https://api.corvusbelli.com/army/units/en/501");
    ("corregidor", "https://api.corvusbelli.com/army/units/en/502");
    ("bakunin", "https://api.corvusbelli.com/army/units/en/503");
    ("tunguska", "https://api.corvusbelli.com/army/units/en/504");
    ("combined_army", "https://api.corvusbelli.com/army/units/en/601");
    ("morat", "https://api.corvusbelli.com/army/units/en/602");
    ("shasvastii", "https://api.corvusbelli.com/army/units/en/603");
    ("onyx", "https://api.corvusbelli.com/army/units/en/604");
    ("aleph", "https://api.corvusbelli.com/army/units/en/701");
    ("steel_phalanx", "https://api.corvusbelli.com/army/units/en/702");
    ("oss", "https://api.corvusbelli.com/army/units/en/703");
    ("tohaa", "https://api.corvusbelli.com/army/units/en/801");
    ("druze", "https://api.corvusbelli.com/army/units/en/902");
    ("jsa", "https://api.corvusbelli.com/army/units/en/903");
    ("ikari_company", "https://api.corvusbelli.com/army/units/en/904");
    ("starco", "https://api.corvusbelli.com/army/units/en/905");
    ("spiral_corps", "https://api.corvusbelli.com/army/units/en/906");
    ("foreign_company", "https://api.corvusbelli.com/army/units/en/907");
    ("dashat_company", "https://api.corvusbelli.com/army/units/en/908");
    ("white_company", "https://api.corvusbelli.com/army/units/en/909");
    ("o-12", "https://api.corvusbelli.com/army/units/en/1001");
    ("starmada", "https://api.corvusbelli.com/army/units/en/1002")
  ].

Fixpoint has_slash (s : string) : bool :=
  match s with
  | EmptyString => false
  | String c rest => Ascii.eqb c "/"%char || has_slash rest
  end.

(** [os.path.basename] on POSIX: what follows the last ['/']. *)
Fixpoint basename (file : string) : string :=
  match file with
  | EmptyString => EmptyString
  | String c rest =>
      if has_slash rest then basename rest
      else if Ascii.eqb c "/"%char then rest
      else file
  end.

(** [s.split('.')[0]]: the characters before the first dot. *)
Fixpoint first_part (s : string) : string :=
  match s with
  | EmptyString => EmptyString
  | String c rest => if Ascii.eqb c "."%char then EmptyString else String c (first_part rest)
  end.

(** [os.path.basename(file).split('.')[0]]. *)
Definition var_name (file : string) : string := first_part (basename file).

(** The folder [infinity_inspector_files] (absent, or its files by name)
    and what has been printed; [time.sleep] changes neither. *)
Record world := {
  folder : option (gmap string string);
  stdout : list string
}.

Section Download.
(** What [request.urlopen(url)] gives when it is read: the body, or the
    exception it raises. *)
Variable urlopen : string → result string.

(** [download_file] in an existing folder: an old copy is removed before
    the URL is opened, and the file is opened for writing only after the
    URL has answered. *)
Definition download_file (file_key : string) (file_list : gmap string string)
    (files : gmap string string) : gmap string string * result bool :=
  match file_list !! file_key with
  | None => (files, Ok false)
  | Some url =>
      let file_name := file_key +:+ ".json" in
      let files := delete file_name files in
      match urlopen url with
      | Ok body => (<[file_name := body]> files, Ok true)
      | Raise e => (files, Raise e)
      end
  end.

(** [verify_file_folder]: the folder is created when it is missing. *)
Definition verify_file_folder (w : world) : gmap string string :=
  default ∅ (folder w).

(** The loop of [download_armies]. A name that is no key of the file list
    reaches line 138, where a [str] is added to [file_list.keys()]: the
    argument of [print] raises [TypeError]. *)
Fixpoint download_each (armies : list string) (files : gmap string string)
    (out : list string) : world * result () :=
  match armies with
  | [] => ({| folder := Some files; stdout := out |}, Ok ())
  | army :: rest =>
      let out := out ++ ["Downloading " +:+ army] in
      match download_file army get_file_list files with
      | (files, Ok true) => download_each rest files out
      | (files, Ok false) => ({| folder := Some files; stdout := out |}, Raise TypeError)
      | (files, Raise e) => ({| folder := Some files; stdout := out |}, Raise e)
      end
  end.

Definition download_armies (armies : string + list string) (w : world)
  : world * result () :=
  let armies := match armies with inl army => [army] | inr armies => armies end in
  let files := verify_file_folder w in
  let out := stdout w ++ ["Downloading metadata"] in
  match download_file "metadata" get_file_list files with
  | (files, Ok true) => download_each armies files out
  | (files, Ok false) =>
      ({| folder := Some files; stdout := out ++ ["Failed to download metadata"] |}, Ok ())
  | (files, Raise e) => ({| folder := Some files; stdout := out |}, Raise e)
  end.

End Download.

(** ** Predicates and reference functions used in the statements *)

(** No definition of the pipeline raises a class of the program's own. *)
Definition builtin (e : pyexn) : Prop :=
  match e with UserDefined _ => False | _ => True end.

(** The specification's notion of a slot in use: its dict has an [id] key
    that holds a truthy value. *)
Definition has_id (e : entry) : bool :=
  match e with
  | Some d =>
      match d !! "id" with
      | Some v => truthy_val v
      | None => false
      end
  | None => false
  end.

(** The id of the slot is a scalar ([None] or an integer) or is absent. *)
Definition scalar_id (e : entry) : bool :=
  match getitem e "id" with
  | Ok (PyList _) => false
  | _ => true
  end.

(** No id of the catalog is listed under two different names. *)
Definition one_name_per_id (lookup : list CatalogEntry) : Prop :=
  ∀ c1 c2, c1 ∈ lookup → c2 ∈ lookup →
           entry_id c1 = entry_id c2 → entry_name c1 = entry_name c2.

(** ["(" + name + ")"] for an entry of the extras catalog. *)
Definition suffix (c : CatalogEntry) : string := "(" +:+ entry_name c +:+ ")".

(** The rows one group gives: every option with every profile of that
    group, options outermost. *)
Definition group_rows (u : Unit) (g : ProfileGroup) : list Row :=
  o ← options g; p ← profiles g; [(u, g, o, p)].

Definition unit_rows (u : Unit) : list Row :=
  g ← profileGroups u; group_rows u g.

Definition group_ok (g : ProfileGroup) : Prop :=
  options g ≠ [] ∧ profiles g ≠ [].

Definition unit_ok (u : Unit) : Prop :=
  profileGroups u ≠ [] ∧ Forall group_ok (profileGroups u).

(** The specification's order count: every entry adds its [total] when
    its [type] is the category, and nothing otherwise. *)
Fixpoint sum_of_matching (orders_list : list Order) (category : string) : Z :=
  match orders_list with
  | [] => 0
  | order :: rest =>
      (if decide (o_type order = category) then o_total order else 0)
      + sum_of_matching rest category
  end.


(** The four order types the columns are built for. *)
Definition counted_type (order : Order) : Prop :=
  o_type order ∈ ["REGULAR"; "IRREGULAR"; "IMPETUOUS"; "LIEUTENANT"].

#[global] Instance counted_type_dec order : Decision (counted_type order).
Proof. unfold counted_type. apply _. Defined.

(** The rows line 343 keeps of a unit: all of them under the unit's name,
    or none when the name is missing or empty. *)
Definition named_rows (u : Unit) : list (string * blanked Row) :=
  match unit_name u with
  | Some name =>
      if decide (name = "") then [] else (λ row, (name, Kept row)) <$> unit_rows u
  | None => []
  end.

(** The body served for a key of the file list, when the key is known and
    its URL answers. *)
Definition fetched (urlopen : string → result string) (file_key : string) : option string :=
  match get_file_list !! file_key with
  | Some url =>
      match urlopen url with
      | Ok body => Some body
      | Raise _ => None
      end
  | None => None
  end.

(** The folder after the files of [keys] were written one after the
    other. *)
Definition store (urlopen : string → result string) (keys : list string)
    (files : gmap string string) : gmap string string :=
  foldl (λ files key,
           match fetched urlopen key with
           | Some body => <[key +:+ ".json" := body]> files
           | None => files
           end) files keys.

#[global] Arguments get_file_list : simpl never.
#[global] Arguments fetched : simpl never.

Fixpoint has_dot (s : string) : bool :=
  match s with
  | EmptyString => false
  | String c rest => Ascii.eqb c "."%char || has_dot rest
  end.








(** * Properties *)

(** One unit with one group, one option and one profile, against catalogs
    where skill 5 is Camouflage, weapon 9 is Rifle and extra 1 is AP. *)
Example one_unit_end_to_end :
  let units := [sample_unit [{| options := [sample_option 10 []];
                                profiles := [sample_profile 2] |}]] in
  ∃ army_df,
    flatten units = Ok army_df ∧
    convert_skill_ids insertion_order army_df [cat 5 "Camouflage"] [cat 1 "AP"]
    = Ok [["Camouflage"]] ∧
    convert_weapon_ids insertion_order army_df [cat 9 "Rifle"] [cat 1 "AP"]
    = Ok [["Rifle(AP)"]] ∧
    convert_equipment_ids insertion_order army_df [] [cat 1 "AP"] = Ok [[]] ∧
    convert_type_ids army_df = Ok ["MI"] ∧
    add_order_columns army_df = Ok [(1, 0, 0, 0)].
Proof. eexists. repeat split; by vm_compute. Qed.

(** ** The result monad *)

Lemma bind_Ok {A B} (m : result A) (f : A → result B) b :
  m ≫= f = Ok b ↔ ∃ a, m = Ok a ∧ f a = Ok b.
Proof.
  destruct m as [a|e]; simpl.
  - split; [eauto | by intros (a' & [= <-] & ?)].
  - split; [done | by intros (? & ? & ?)].
Qed.

Lemma mapM_Ok {A B} (f : A → result B) l k :
  mapM f l = Ok k ↔ Forall2 (λ x y, f x = Ok y) l k.
Proof.
  revert k. induction l as [|x l IH]; intros k; simpl.
  - split; [intros [= <-]; constructor | by inversion 1].
  - split.
    + intros (y & Hy & (k' & Hk' & [= <-])%bind_Ok)%bind_Ok.
      constructor; [done | by apply IH].
    + inversion 1 as [|? y ? k' Hy Hk']; subst.
      apply bind_Ok. exists y. split; [done |].
      apply bind_Ok. exists k'. split; [by apply IH | done].
Qed.

(** ** Masks as filters *)

Lemma column_id_Ok df : df ≠ [] → column_id df = Ok (entry_id <$> df).
Proof. by destruct df. Qed.

Lemma select_names_eq z df :
  select_names ((λ c, c =? z) <$> (entry_id <$> df)) df
  = entry_name <$> filter (λ c, entry_id c = z) df.
Proof.
  induction df as [|c df IH]; [done |].
  rewrite !fmap_cons, filter_cons. cbn [select_names].
  destruct (Z.eqb_spec (entry_id c) z).
  - rewrite decide_True by done. by rewrite IH.
  - by rewrite decide_False.
Qed.

Lemma select_names_none df :
  select_names ((λ _, false) <$> (entry_id <$> df)) df = [].
Proof. induction df as [|c df IH]; [done |]. by rewrite !fmap_cons. Qed.

Lemma select_names_isin (l : list Z) df :
  select_names ((λ c, bool_decide (c ∈ l)) <$> (entry_id <$> df)) df
  = entry_name <$> filter (λ c, entry_id c ∈ l) df.
Proof.
  induction df as [|c df IH]; [done |].
  rewrite !fmap_cons, filter_cons. cbn [select_names].
  case_bool_decide.
  - rewrite decide_True by done. by rewrite IH.
  - by rewrite decide_False.
Qed.

Lemma filter_isin_nil (df : list CatalogEntry) :
  filter (λ c, entry_id c ∈ @nil Z) df = [].
Proof.
  induction df as [|c df IH]; [done |].
  rewrite filter_cons, decide_False; [done | apply not_elem_of_nil].
Qed.

(** ** [id_to_name]: which slots are skipped, and in which order *)

Section IdResolverFacts.
Context (order : set_order).
Variables lookup extras_lookup : list CatalogEntry.

Local Abbreviation resolve := (full_name order lookup extras_lookup).
Local Abbreviation run := (id_to_name order lookup extras_lookup).
Local Abbreviation loop := (id_to_name_loop order lookup extras_lookup).

Lemma id_to_name_loop_Ok id_list full_names names :
  loop id_list full_names = Ok names ↔
  ∃ ns, names = full_names ++ ns ∧
        Forall2 (λ e n, resolve e = Ok n) (filter (λ e, truthy e) id_list) ns.
Proof.
  revert full_names. induction id_list as [|e rest IH]; intros acc.
  - simpl. split.
    + intros [= <-]. exists []. by rewrite app_nil_r.
    + intros (ns & -> & Hns). inversion Hns. by rewrite app_nil_r.
  - cbn [id_to_name_loop]. rewrite filter_cons.
    destruct (truthy e) eqn:He.
    + rewrite decide_True by done. rewrite bind_Ok. split.
      * intros (n & Hn & (ns & -> & Hns)%IH).
        exists (n :: ns). split; [by rewrite <-app_assoc | by constructor].
      * intros (ns & -> & Hns). inversion Hns as [|? n ? ns' Hn Hns']; subst.
        exists n. split; [done |]. apply IH. exists ns'.
        split; [by rewrite <-app_assoc | done].
    + rewrite decide_False by (by intros []). apply IH.
Qed.

Lemma id_to_name_Ok id_list names :
  run id_list = Ok names ↔
  Forall2 (λ e n, resolve e = Ok n) (filter (λ e, truthy e) id_list) names.
Proof.
  unfold id_to_name. rewrite id_to_name_loop_Ok. split.
  - by intros (ns & -> & Hns).
  - intros Hns. by exists names.
Qed.

Lemma order_nil : order [] = [].
Proof.
  destruct (order []) as [|x xs] eqn:Hxs; [done |].
  assert (x ∈ order []) as Hx by (rewrite Hxs; left).
  apply set_to_list_elem in Hx. by apply elem_of_nil in Hx.
Qed.

(** A set of copies of one name lists that name once. *)
Lemma order_constant xs x :
  x ∈ xs → (∀ y, y ∈ xs → y = x) → order xs = [x].
Proof.
  intros Hx Hall.
  pose proof (set_to_list_NoDup order xs) as Hnd.
  assert (∀ y, y ∈ order xs → y = x) as Hall'
    by (intros y Hy%set_to_list_elem; by apply Hall).
  apply (set_to_list_elem order) in Hx.
  destruct (order xs) as [|a [|b l]].
  - by apply elem_of_nil in Hx.
  - f_equal. apply Hall'. left.
  - exfalso. apply NoDup_cons in Hnd as [Hab _]. apply Hab.
    rewrite (Hall' a), (Hall' b); [left | right; left | left].
Qed.

Lemma matching_names_int d z :
  lookup ≠ [] → d !! "id" = Some (PyInt z) →
  matching_names order lookup (Some d)
  = Ok (order (entry_name <$> filter (λ c, entry_id c = z) lookup)).
Proof.
  intros Hne Hid. unfold matching_names, getitem.
  rewrite column_id_Ok by done. rewrite Hid. simpl.
  by rewrite select_names_eq.
Qed.

Lemma extras_of_absent d :
  d !! "extra" = None → extras_of extras_lookup (Some d) = Ok [].
Proof.
  intros Hx. unfold extras_of, contains. simpl.
  rewrite bool_decide_eq_false_2; [done |]. rewrite Hx. by intros [? ?].
Qed.

Lemma extras_of_falsy d v :
  d !! "extra" = Some v → truthy_val v = false →
  extras_of extras_lookup (Some d) = Ok [].
Proof.
  intros Hx Hv. unfold extras_of, contains, getitem. simpl.
  rewrite bool_decide_eq_true_2 by (rewrite Hx; eauto).
  rewrite Hx. simpl. by rewrite Hv.
Qed.

Lemma extras_of_list d (l : list Z) :
  extras_lookup ≠ [] → d !! "extra" = Some (PyList l) →
  extras_of extras_lookup (Some d)
  = Ok ((λ c, "(" +:+ entry_name c +:+ ")") <$> filter (λ c, entry_id c ∈ l) extras_lookup).
Proof.
  intros Hne Hx. destruct (decide (l = [])) as [->|Hl].
  - rewrite (extras_of_falsy d (PyList [])) by done.
    by rewrite filter_isin_nil.
  - unfold extras_of, contains, getitem. simpl.
    rewrite bool_decide_eq_true_2 by (rewrite Hx; eauto).
    rewrite Hx. simpl. rewrite bool_decide_eq_false_2 by done. simpl.
    rewrite column_id_Ok by done. simpl.
    rewrite select_names_isin. by rewrite <-list_fmap_compose.
Qed.

Lemma extras_of_builtin e err :
  extras_of extras_lookup e = Raise err → builtin err.
Proof.
  unfold extras_of, contains, getitem, column_id, isin.
  destruct e as [d|]; simpl; [| by intros [= <-]].
  repeat (case_match; simpl; try done); by intros [= <-].
Qed.

Lemma full_name_builtin e err : resolve e = Raise err → builtin err.
Proof.
  unfold full_name.
  destruct (matching_names order lookup e) as [names|err'] eqn:Hn; simpl.
  - destruct (extras_of extras_lookup e) as [xs|err''] eqn:Hx; simpl.
    + destruct names; simpl; by intros [= <-].
    + intros [= <-]. by eapply extras_of_builtin.
  - intros [= <-]. revert Hn.
    unfold matching_names, column_id, getitem, series_eq.
    destruct e as [d|]; simpl;
      repeat (case_match; simpl; try done); by intros [= <-].
Qed.

End IdResolverFacts.

(** C3 (as amended). [id_to_name] keeps the input order and skips exactly
    the slots that are themselves falsy ([None] or an empty dict): it
    returns [names] exactly when [names] lists, slot by slot, the composed
    name of each truthy slot, so the number of names is the number of truthy
    slots. *)
Theorem id_to_name_skips_falsy_slots (order : set_order)
    (lookup extras_lookup : list CatalogEntry) (id_list : list entry) :
  (∀ names,
     id_to_name order lookup extras_lookup id_list = Ok names ↔
     Forall2 (λ e n, full_name order lookup extras_lookup e = Ok n)
             (filter (λ e, truthy e) id_list) names) ∧
  (∀ names,
     id_to_name order lookup extras_lookup id_list = Ok names →
     length names = length (filter (λ e, truthy e) id_list)).
Proof.
  split; intros names.
  - apply id_to_name_Ok.
  - intros Hn%id_to_name_Ok. symmetry. by eapply Forall2_length.
Qed.

(** C3 as stated fails: a slot [{"id": 0}] has a falsy id and is resolved
    all the same, and a slot without an [id] key raises [KeyError] instead
    of being skipped. *)
Lemma id_to_name_keeps_slot_with_falsy_id :
  let id_list := [ref_of [("id", PyInt 0)]] in
  (∃ names,
     id_to_name insertion_order [cat 0 "Zero"; cat 5 "Camouflage"] [] id_list = Ok names ∧
     length names ≠ length (filter (λ e, has_id e) id_list)) ∧
  id_to_name insertion_order [cat 5 "Camouflage"] [cat 1 "AP"]
    [ref_of [("extra", PyList [1])]] = Raise KeyError.
Proof.
  split; [| by vm_compute].
  exists ["Zero"]. split; by vm_compute.
Qed.

(** C4 (as amended). A reference whose integer id matches no entry of the
    catalog makes resolution fail with a built-in exception, never a class
    of the program's own: [IndexError], from taking item 0 of the empty list
    of matches, whenever the catalog has rows and the extras of the
    reference are read without error. No id list that holds such a
    reference resolves. *)
Theorem unmatched_id_raises_IndexError (order : set_order)
    (lookup extras_lookup : list CatalogEntry) (d : gmap string pyval) (z : Z) :
  d !! "id" = Some (PyInt z) →
  z ∉ (entry_id <$> lookup) →
  (∃ err, full_name order lookup extras_lookup (Some d) = Raise err ∧ builtin err) ∧
  (lookup ≠ [] → is_ok (extras_of extras_lookup (Some d)) = true →
   full_name order lookup extras_lookup (Some d) = Raise IndexError) ∧
  (∀ before after,
     is_ok (id_to_name order lookup extras_lookup (before ++ Some d :: after)) = false).
Proof.
  intros Hid Hz.
  assert (lookup ≠ [] → matching_names order lookup (Some d) = Ok []) as Hnames.
  { intros Hne. rewrite (matching_names_int _ _ _ z) by done.
    destruct (filter (λ c, entry_id c = z) lookup) as [|c cs] eqn:Hf;
      [by rewrite order_nil |].
    assert (c ∈ filter (λ c, entry_id c = z) lookup) as [Heq Hc]%list_elem_of_filter
      by (rewrite Hf; left).
    destruct Hz. rewrite <-Heq. by apply list_elem_of_fmap_2. }
  assert (∀ n, full_name order lookup extras_lookup (Some d) ≠ Ok n) as Hfail.
  { intros n. unfold full_name. destruct (decide (lookup = [])) as [->|Hne]; [done |].
    rewrite Hnames by done. simpl.
    by destruct (extras_of extras_lookup (Some d)). }
  split; [| split].
  - destruct (full_name order lookup extras_lookup (Some d)) as [n|err] eqn:Hfn.
    + by destruct (Hfail n).
    + exists err. split; [done |]. by eapply full_name_builtin.
  - intros Hne Hx. unfold full_name. rewrite Hnames by done. simpl.
    by destruct (extras_of extras_lookup (Some d)).
  - intros before after.
    destruct (id_to_name order lookup extras_lookup (before ++ Some d :: after))
      as [names|] eqn:Hrun; [| done].
    exfalso. apply id_to_name_Ok in Hrun.
    assert (Some d ∈ filter (λ e, truthy e) (before ++ Some d :: after)) as Hin.
    { apply list_elem_of_filter. split.
      - simpl. rewrite bool_decide_eq_false_2; [done |].
        intros ->. by rewrite lookup_empty in Hid.
      - apply elem_of_app. right. left. }
    apply list_elem_of_lookup in Hin as [i Hi].
    destruct (Forall2_lookup_l _ _ _ _ _ Hrun Hi) as (n & _ & Hn).
    by destruct (Hfail n).
Qed.

(** C4 as stated fails: the error is the [IndexError] of an out-of-range
    list item, not [IdResolutionFailure]. *)
Lemma unmatched_id_is_not_a_named_failure :
  id_to_name insertion_order [cat 5 "Camouflage"] [cat 1 "AP"] [ref_of [("id", PyInt 7)]]
  = Raise IndexError ∧
  id_to_name insertion_order [cat 5 "Camouflage"] [cat 1 "AP"] [ref_of [("id", PyInt 7)]]
  ≠ Raise (UserDefined "IdResolutionFailure").
Proof. split; by vm_compute. Qed.

Lemma unmatched_id_raises_IndexError_witness :
  let d : gmap string pyval := list_to_map [("id", PyInt 7)] in
  d !! "id" = Some (PyInt 7) ∧
  (7 ∉ (entry_id <$> [cat 5 "Camouflage"])) ∧
  full_name insertion_order [cat 5 "Camouflage"] [cat 1 "AP"] (Some d) = Raise IndexError.
Proof.
  intros d.
  assert (d !! "id" = Some (PyInt 7)) as Hid by (by vm_compute).
  assert (7 ∉ (entry_id <$> [cat 5 "Camouflage"])) as Hz
    by (by apply (bool_decide_unpack _)).
  split; [exact Hid | split; [exact Hz |]].
  apply (unmatched_id_raises_IndexError insertion_order
           [cat 5 "Camouflage"] [cat 1 "AP"] d 7 Hid Hz); by vm_compute.
Defined.

(** ** Dependence on the iteration order of the set *)

Lemma matching_names_order_independent (o1 o2 : set_order) lookup e :
  one_name_per_id lookup → scalar_id e = true →
  matching_names o1 lookup e = matching_names o2 lookup e.
Proof.
  intros Hfun Hsc. destruct (decide (lookup = [])) as [->|Hne]; [done |].
  destruct e as [d|]; [| by unfold matching_names; rewrite column_id_Ok by done].
  unfold scalar_id, getitem in Hsc.
  destruct (d !! "id") as [[| z | l]|] eqn:Hid; [| | done |].
  - unfold matching_names, getitem. rewrite column_id_Ok, Hid by done. simpl.
    by rewrite select_names_none, !order_nil.
  - rewrite !(matching_names_int _ _ _ z) by done.
    destruct (filter (λ c, entry_id c = z) lookup) as [|c cs] eqn:Hf;
      [by rewrite !order_nil |].
    assert (∀ y, y ∈ entry_name <$> c :: cs → y = entry_name c) as Hall.
    { intros y (c' & -> & Hc')%list_elem_of_fmap.
      rewrite <-Hf in Hc'. apply list_elem_of_filter in Hc' as [Hz' Hin'].
      assert (c ∈ filter (λ c, entry_id c = z) lookup) as [Hz Hin]%list_elem_of_filter
        by (rewrite Hf; left).
      apply Hfun; congruence. }
    rewrite !(order_constant _ _ (entry_name c)); [done | | done | | done];
      rewrite fmap_cons; left.
  - unfold matching_names, getitem. by rewrite column_id_Ok, Hid by done.
Qed.

Lemma id_to_name_loop_order_independent (o1 o2 : set_order) lookup extras_lookup
    id_list full_names :
  one_name_per_id lookup → forallb scalar_id id_list = true →
  id_to_name_loop o1 lookup extras_lookup id_list full_names
  = id_to_name_loop o2 lookup extras_lookup id_list full_names.
Proof.
  intros Hfun. revert full_names.
  induction id_list as [|e rest IH]; intros acc Hsc; [done |].
  simpl in Hsc. apply andb_prop in Hsc as [He Hrest].
  cbn [id_to_name_loop]. destruct (truthy e); [| by apply IH].
  unfold full_name. rewrite (matching_names_order_independent o1 o2) by done.
  destruct (matching_names o2 lookup e); simpl; [| done].
  destruct (extras_of extras_lookup e); simpl; [| done].
  destruct (first_item a); simpl; [| done]. by apply IH.
Qed.

(** Whatever the order, the name that is picked is the name of a catalog
    entry with the id of the reference. *)
Lemma full_name_starts_with_a_match (order : set_order) lookup extras_lookup d z n :
  d !! "id" = Some (PyInt z) →
  full_name order lookup extras_lookup (Some d) = Ok n →
  ∃ c extras, c ∈ lookup ∧ entry_id c = z ∧
              extras_of extras_lookup (Some d) = Ok extras ∧
              n = entry_name c +:+ String.concat "" extras.
Proof.
  intros Hid. unfold full_name.
  intros (names & Hnames & (extras & Hextras & Hn)%bind_Ok)%bind_Ok.
  apply bind_Ok in Hn as (name0 & Hfirst & [= <-]).
  destruct names as [|x names]; [done |]. injection Hfirst as ->.
  destruct (decide (lookup = [])) as [->|Hne]; [done |].
  rewrite (matching_names_int _ _ _ z) in Hnames by done. injection Hnames as Hnames.
  assert (name0 ∈ order (entry_name <$> filter (λ c, entry_id c = z) lookup)) as Hin
    by (rewrite Hnames; left).
  apply set_to_list_elem, list_elem_of_fmap in Hin as (c & -> & [Hz Hc]%list_elem_of_filter).
  by exists c, extras.
Qed.

(** C5 (as amended). When no id of the catalog is listed under two
    different names (and every id of the list is a scalar), the result of
    [id_to_name] is the same whatever order the set of matching names is
    iterated in: any two runs on the same references and catalogs agree. *)
Theorem id_to_name_order_independent (o1 o2 : set_order)
    (lookup extras_lookup : list CatalogEntry) (id_list : list entry) :
  one_name_per_id lookup →
  forallb scalar_id id_list = true →
  id_to_name o1 lookup extras_lookup id_list = id_to_name o2 lookup extras_lookup id_list.
Proof. intros Hfun Hsc. by apply id_to_name_loop_order_independent. Qed.

Lemma one_name_per_id_dec (lookup : list CatalogEntry) :
  Forall (λ c1, Forall (λ c2, entry_id c1 = entry_id c2 → entry_name c1 = entry_name c2)
                       lookup) lookup →
  one_name_per_id lookup.
Proof.
  intros Hall c1 c2 Hc1 Hc2.
  rewrite Forall_forall in Hall. specialize (Hall c1 Hc1).
  rewrite Forall_forall in Hall. by apply Hall.
Defined.

Lemma id_to_name_order_independent_witness :
  let lookup := [cat 5 "Camouflage"; cat 9 "Rifle"; cat 5 "Camouflage"] in
  let id_list := [ref_of [("id", PyInt 5)]; None; ref_of [("id", PyInt 9); ("extra", PyList [1])]] in
  one_name_per_id lookup ∧
  forallb scalar_id id_list = true ∧
  id_to_name insertion_order lookup [cat 1 "AP"] id_list
  = id_to_name reversed_order lookup [cat 1 "AP"] id_list.
Proof.
  intros lookup id_list.
  assert (one_name_per_id lookup) as Hfun
    by (apply one_name_per_id_dec; by apply (bool_decide_unpack _)).
  assert (forallb scalar_id id_list = true) as Hsc by (by vm_compute).
  split; [exact Hfun | split; [exact Hsc |]].
  exact (id_to_name_order_independent insertion_order reversed_order
           lookup [cat 1 "AP"] id_list Hfun Hsc).
Defined.

(** C5 as stated fails: with two names listed under one id, the name that
    comes first depends on the iteration order of the set, and two runs
    differ. *)
Lemma id_to_name_depends_on_set_order :
  let lookup := [cat 5 "Camouflage"; cat 5 "Camo"] in
  let id_list := [ref_of [("id", PyInt 5)]] in
  id_to_name insertion_order lookup [] id_list = Ok ["Camouflage"] ∧
  id_to_name reversed_order lookup [] id_list = Ok ["Camo"] ∧
  id_to_name insertion_order lookup [] id_list ≠ id_to_name reversed_order lookup [] id_list.
Proof. repeat split; by vm_compute. Qed.

(** ** Extras *)

Lemma append_empty_r (s : string) : s +:+ "" = s.
Proof.
  induction s as [|a s IH]; [done |].
  change (String a (s +:+ "") = String a s). by f_equal.
Qed.

Lemma filter_matched_ids_in (l : list Z) (df df' : list CatalogEntry) :
  df ⊆ df' →
  filter (λ c, entry_id c ∈ l) df
  = filter (λ c, entry_id c ∈ filter (λ x, x ∈ (entry_id <$> df')) l) df.
Proof.
  induction df as [|c df IH]; intros Hsub; [done |].
  rewrite !filter_cons, IH by set_solver.
  apply decide_ext. rewrite list_elem_of_filter.
  split; [| by intros [_ ?]]. intros Hc. split; [| done].
  apply list_elem_of_fmap_2, Hsub. left.
Qed.

Lemma filter_matched_ids (l : list Z) (df : list CatalogEntry) :
  filter (λ c, entry_id c ∈ l) df
  = filter (λ c, entry_id c ∈ filter (λ x, x ∈ (entry_id <$> df)) l) df.
Proof. by apply filter_matched_ids_in. Qed.

Lemma full_name_compose (order : set_order) lookup extras_lookup e base others sfx :
  matching_names order lookup e = Ok (base :: others) →
  extras_of extras_lookup e = Ok sfx →
  full_name order lookup extras_lookup e = Ok (base +:+ String.concat "" sfx).
Proof. intros Hn Hx. unfold full_name. by rewrite Hn, Hx. Qed.

(** C6 (as amended). For a reference whose base name resolves: when its
    [extra] list is non-empty and the extras catalog has rows, the composed
    name is the base name followed by one ["(" + name + ")"] per extras
    entry whose id is in the list, in the order of the extras catalog (not
    of the [extra] list), an id without an entry adding nothing; when the
    extras catalog is empty the lookup raises [KeyError]; when [extra] is
    absent or empty the composed name is exactly the base name. *)
Theorem extras_appended_in_catalog_order (order : set_order)
    (lookup extras_lookup : list CatalogEntry) (d : gmap string pyval)
    (base : string) (others : list string) :
  matching_names order lookup (Some d) = Ok (base :: others) →
  (∀ l : list Z,
     d !! "extra" = Some (PyList l) → l ≠ [] → extras_lookup ≠ [] →
     full_name order lookup extras_lookup (Some d)
     = Ok (base +:+ String.concat ""
             (suffix <$> filter (λ c, entry_id c ∈ l) extras_lookup))) ∧
  (∀ l : list Z,
     d !! "extra" = Some (PyList l) → l ≠ [] → extras_lookup = [] →
     full_name order lookup extras_lookup (Some d) = Raise KeyError) ∧
  (d !! "extra" = None ∨ d !! "extra" = Some (PyList []) →
   full_name order lookup extras_lookup (Some d) = Ok base).
Proof.
  intros Hbase. split; [| split].
  - intros l Hx Hl Hne.
    eapply full_name_compose; [done |]. by apply extras_of_list.
  - intros l Hx Hl ->. unfold full_name. rewrite Hbase. simpl.
    unfold extras_of, contains, getitem. simpl.
    rewrite bool_decide_eq_true_2 by (rewrite Hx; eauto).
    rewrite Hx. simpl. by rewrite bool_decide_eq_false_2.
  - intros Hx.
    rewrite (full_name_compose _ _ _ _ base others [] Hbase).
    + simpl. by rewrite append_empty_r.
    + destruct Hx as [Hx|Hx]; [by apply extras_of_absent |].
      by eapply extras_of_falsy.
Qed.

Lemma extras_appended_in_catalog_order_witness :
  let d : gmap string pyval := list_to_map [("id", PyInt 9); ("extra", PyList [2; 1])] in
  let extras_lookup := [cat 1 "AP"; cat 2 "Shock"; cat 3 "DA"] in
  matching_names insertion_order [cat 9 "Rifle"] (Some d) = Ok ["Rifle"] ∧
  full_name insertion_order [cat 9 "Rifle"] extras_lookup (Some d) = Ok "Rifle(AP)(Shock)".
Proof.
  intros d extras_lookup.
  assert (matching_names insertion_order [cat 9 "Rifle"] (Some d) = Ok ["Rifle"])
    as Hbase by (by vm_compute).
  split; [exact Hbase |].
  refine (proj1 (extras_appended_in_catalog_order insertion_order [cat 9 "Rifle"]
                   extras_lookup d "Rifle" [] Hbase) [2; 1] _ _ _).
  - by vm_compute.
  - done.
  - done.
Defined.

(** C6 as stated fails: against an empty extras catalog a reference with a
    non-empty [extra] list raises [KeyError] although its base name
    resolves, and against a catalog that lacks one of the ids that id does
    not resolve and gets no suffix. *)
Lemma extras_not_all_resolved :
  let lookup := [cat 9 "Rifle"] in
  matching_names insertion_order lookup (ref_of [("id", PyInt 9); ("extra", PyList [1])])
  = Ok ["Rifle"] ∧
  full_name insertion_order lookup [] (ref_of [("id", PyInt 9); ("extra", PyList [1])])
  = Raise KeyError ∧
  full_name insertion_order lookup [cat 1 "AP"]
    (ref_of [("id", PyInt 9); ("extra", PyList [1; 4])])
  = Ok "Rifle(AP)".
Proof. repeat split; by vm_compute. Qed.

(** C10 (as amended). When the extras catalog has rows, reading the extras
    of a reference never fails for want of a match: the suffixes are those
    of the extras entries whose id is in the [extra] list, one per such
    entry, so an id without a match adds nothing (the ids that do match
    give the same suffixes on their own). The count can fall short of the
    length of the [extra] list, and with a repeated catalog id exceed it. *)
Theorem unmatched_extras_are_skipped :
  (∀ (extras_lookup : list CatalogEntry) (d : gmap string pyval) (l : list Z),
     extras_lookup ≠ [] → d !! "extra" = Some (PyList l) →
     ∃ sfx, extras_of extras_lookup (Some d) = Ok sfx ∧
            sfx = suffix <$> filter (λ c, entry_id c ∈ l) extras_lookup ∧
            length sfx = length (filter (λ c, entry_id c ∈ l) extras_lookup) ∧
            sfx = suffix <$> filter
                    (λ c, entry_id c ∈ filter (λ x, x ∈ (entry_id <$> extras_lookup)) l)
                    extras_lookup) ∧
  (∃ sfx, extras_of [cat 1 "AP"] (ref_of [("id", PyInt 9); ("extra", PyList [1; 4])]) = Ok sfx ∧
          (length sfx < length [1; 4])%nat) ∧
  (∃ sfx, extras_of [cat 1 "AP"; cat 1 "AP+Shock"]
            (ref_of [("id", PyInt 9); ("extra", PyList [1])]) = Ok sfx ∧
          (length sfx > length [1])%nat).
Proof.
  split; [| split].
  - intros extras_lookup d l Hne Hx. eexists. split; [by apply extras_of_list |].
    split; [done |]. split; [by rewrite length_fmap |].
    f_equal. by apply filter_matched_ids.
  - exists ["(AP)"]. split; [by vm_compute | simpl; lia].
  - exists ["(AP)"; "(AP+Shock)"]. split; [by vm_compute | simpl; lia].
Qed.

(** C10 as stated fails when the extras catalog is empty: the frame has
    no [id] column and reading it raises [KeyError], although the base name
    resolves. *)
Lemma extras_of_empty_catalog_raises :
  extras_of [] (ref_of [("id", PyInt 9); ("extra", PyList [1])]) = Raise KeyError ∧
  id_to_name insertion_order [cat 9 "Rifle"] []
    [ref_of [("id", PyInt 9); ("extra", PyList [1])]] = Raise KeyError.
Proof. split; by vm_compute. Qed.

(** ** Flattening *)

Lemma mapM_app {A B} (f : A → result B) l1 l2 :
  mapM f (l1 ++ l2) = k1 ← mapM f l1; k2 ← mapM f l2; Ok (k1 ++ k2).
Proof.
  induction l1 as [|x l1 IH]; simpl.
  - by destruct (mapM f l2).
  - destruct (f x); simpl; [| done]. rewrite IH.
    destruct (mapM f l1); simpl; [| done]. by destruct (mapM f l2).
Qed.

Lemma list_bind_bind {A B C} (f : A → list B) (g : B → list C) (l : list A) :
  (l ≫= f) ≫= g = l ≫= (λ x, f x ≫= g).
Proof.
  induction l as [|x l IH]; [done |]. by rewrite !bind_cons, bind_app, IH.
Qed.

Lemma list_fmap_as_bind {A B} (f : A → B) (l : list A) :
  f <$> l = l ≫= (λ x, [f x]).
Proof. induction l as [|x l IH]; [done |]. by rewrite fmap_cons, bind_cons, IH. Qed.

Lemma add_column_app {R D} (df1 df2 : list (R * cell D)) :
  add_column_from_dict_value (df1 ++ df2)
  = k1 ← add_column_from_dict_value df1; k2 ← add_column_from_dict_value df2; Ok (k1 ++ k2).
Proof. apply mapM_app. Qed.

Section Explode.
Context {R A : Type} (column : R → list A).

Lemma add_column_Val (r : R) (xs : list A) :
  add_column_from_dict_value ((λ a, (r, Val a)) <$> xs) = Ok ((λ a, (r, a)) <$> xs).
Proof.
  unfold add_column_from_dict_value.
  induction xs as [|a xs IH]; [done |].
  rewrite !fmap_cons. cbn [mapM]. simpl. by rewrite IH.
Qed.

Lemma explode_cons (r : R) (df : list R) :
  explode column (r :: df)
  = match column r with
    | [] => [(r, NaN)]
    | xs => (λ a, (r, Val a)) <$> xs
    end ++ explode column df.
Proof. done. Qed.

(** Every list has an element: the exploded frame has one row per element
    and each later read of the column finds a dict. *)
Lemma add_column_explode_Ok (df : list R) :
  Forall (λ r, column r ≠ []) df →
  add_column_from_dict_value (explode column df)
  = Ok (r ← df; (λ a, (r, a)) <$> column r).
Proof.
  induction 1 as [|r df Hr _ IH]; [done |].
  rewrite explode_cons, bind_cons, add_column_app, IH.
  destruct (column r) as [|a xs] eqn:Hc; [done |].
  by rewrite (add_column_Val r (a :: xs)).
Qed.

(** Some list is empty: its row holds [NaN] and the read fails. *)
Lemma add_column_explode_Raise (df : list R) :
  ¬ Forall (λ r, column r ≠ []) df →
  add_column_from_dict_value (explode column df) = Raise AttributeError.
Proof.
  induction df as [|r df IH]; intros Hnot; [by destruct Hnot |].
  rewrite explode_cons, add_column_app.
  destruct (column r) as [|a xs] eqn:Hc; [done |].
  rewrite (add_column_Val r (a :: xs)). simpl. rewrite IH; [done |].
  intros Hdf. apply Hnot. constructor; [by rewrite Hc | done].
Qed.

End Explode.

Lemma length_group_rows u g :
  length (group_rows u g) = (length (options g) * length (profiles g))%nat.
Proof.
  unfold group_rows. induction (options g) as [|o os IH]; [done |].
  rewrite bind_cons, length_app, IH. simpl. f_equal. clear IH.
  induction (profiles g) as [|p ps IHp]; [done |].
  rewrite bind_cons. simpl. by rewrite IHp.
Qed.

Lemma length_unit_rows u :
  length (unit_rows u)
  = sum_list ((λ g, length (options g) * length (profiles g))%nat <$> profileGroups u).
Proof.
  unfold unit_rows. induction (profileGroups u) as [|g gs IH]; [done |].
  rewrite bind_cons, length_app, fmap_cons, IH, length_group_rows. done.
Qed.

Lemma flatten_Ok (units : list Unit) :
  units ≠ [] → Forall unit_ok units →
  flatten units = Ok (u ← units; unit_rows u).
Proof.
  intros Hne Hok. unfold flatten. destruct units as [|u0 us]; [done |].
  set (units := u0 :: us) in *. clearbody units.
  rewrite add_column_explode_Ok by (eapply Forall_impl; [done | by intros ? [? ?]]).
  simpl. rewrite add_column_explode_Ok; last first.
  { apply Forall_forall. intros [u g] (u' & Hg & Hu')%list_elem_of_bind.
    apply list_elem_of_fmap in Hg as (g' & [= <- <-] & Hg').
    rewrite Forall_forall in Hok. destruct (Hok _ Hu') as [_ Hgs].
    rewrite Forall_forall in Hgs. by destruct (Hgs _ Hg'). }
  simpl. rewrite add_column_explode_Ok; last first.
  { apply Forall_forall. intros [[u g] o] (ug & Ho & Hug)%list_elem_of_bind.
    apply list_elem_of_fmap in Ho as (o' & [= <- <-] & Ho').
    apply list_elem_of_bind in Hug as (u' & Hg & Hu').
    apply list_elem_of_fmap in Hg as (g' & [= <- <-] & Hg').
    rewrite Forall_forall in Hok. destruct (Hok _ Hu') as [_ Hgs].
    rewrite Forall_forall in Hgs. by destruct (Hgs _ Hg'). }
  f_equal. clear. rewrite !list_bind_bind.
  apply list_bind_ext; [| done]. intros u. unfold unit_rows.
  rewrite !list_fmap_bind. apply list_bind_ext; [| done]. intros g. simpl.
  unfold group_rows. rewrite list_fmap_bind.
  apply list_bind_ext; [| done]. intros o. simpl. apply list_fmap_as_bind.
Qed.

Lemma flatten_Raise (units : list Unit) :
  units ≠ [] → ¬ Forall unit_ok units →
  flatten units = Raise AttributeError.
Proof.
  intros Hne Hnot. unfold flatten. destruct units as [|u0 us]; [done |].
  set (units := u0 :: us) in *. clearbody units.
  destruct (decide (Forall (λ u, profileGroups u ≠ []) units)) as [H1|H1];
    [| by rewrite add_column_explode_Raise].
  rewrite add_column_explode_Ok by done. simpl.
  set (df1 := units ≫= _).
  destruct (decide (Forall (λ row : Unit * ProfileGroup, options row.2 ≠ []) df1))
    as [H2|H2]; [| by rewrite add_column_explode_Raise].
  rewrite add_column_explode_Ok by done. simpl.
  apply add_column_explode_Raise. intros H3. apply Hnot.
  rewrite Forall_forall in H1. rewrite Forall_forall in H2.
  rewrite Forall_forall in H3.
  apply Forall_forall. intros u Hu. split; [by apply H1 |].
  apply Forall_forall. intros g Hg.
  assert ((u, g) ∈ df1) as Hug.
  { apply list_elem_of_bind. exists u. split; [| done]. by apply list_elem_of_fmap_2. }
  pose proof (H2 _ Hug) as Hopts. simpl in Hopts. split; [done |].
  destruct (options g) as [|o os] eqn:Ho; [done |].
  apply (H3 (u, g, o)). apply list_elem_of_bind. exists (u, g). split; [| done].
  simpl. rewrite Ho. apply (list_elem_of_fmap_2 (λ a, (u, g, a))). left.
Qed.

Lemma unit_rows_same_group (u : Unit) (row : Row) :
  row ∈ unit_rows u →
  row_unit row = u ∧
  row_group row ∈ profileGroups u ∧
  row_option row ∈ options (row_group row) ∧
  row_profile row ∈ profiles (row_group row).
Proof.
  intros (g & Hrow & Hg)%list_elem_of_bind.
  apply list_elem_of_bind in Hrow as (o & Hrow & Ho).
  apply list_elem_of_bind in Hrow as (p & Hrow & Hp).
  apply list_elem_of_singleton in Hrow as ->. done.
Qed.

(** C1 (as amended). For a unit list that is not empty: when every unit
    has a group and every group has an option and a profile, flattening
    returns, unit by unit and group by group, each option of a group paired
    with each profile of the same group - [O_1*P_1 + ... + O_G*P_G] rows for
    a unit with [G] groups, never an option with a profile of another
    group; when some unit has no group or some group has no option or no
    profile, flattening raises [AttributeError] and returns no table. *)
Theorem flatten_rows_per_group (units : list Unit) :
  units ≠ [] →
  (Forall unit_ok units →
   flatten units = Ok (u ← units; unit_rows u) ∧
   (∀ u, length (unit_rows u)
         = sum_list ((λ g, length (options g) * length (profiles g))%nat
                       <$> profileGroups u)) ∧
   (∀ u row, row ∈ unit_rows u →
             row_unit row = u ∧ row_group row ∈ profileGroups u ∧
             row_option row ∈ options (row_group row) ∧
             row_profile row ∈ profiles (row_group row))) ∧
  (¬ Forall unit_ok units → flatten units = Raise AttributeError).
Proof.
  intros Hne. split.
  - intros Hok. split; [by apply flatten_Ok |].
    split; [apply length_unit_rows | apply unit_rows_same_group].
  - by apply flatten_Raise.
Qed.

Lemma flatten_rows_per_group_witness :
  let g1 := {| options := [sample_option 10 []; sample_option 15 []];
               profiles := [sample_profile 1] |} in
  let g2 := {| options := [sample_option 0 []];
               profiles := [sample_profile 4; sample_profile 1] |} in
  let units := [sample_unit [g1; g2]] in
  units ≠ [] ∧ Forall unit_ok units ∧
  ∃ rows, flatten units = Ok rows ∧ length rows = (2 * 1 + 1 * 2)%nat.
Proof.
  intros g1 g2 units.
  assert (units ≠ []) as Hne by done.
  assert (Forall unit_ok units) as Hok by (repeat first [done | split | constructor]).
  split; [exact Hne | split; [exact Hok |]].
  exists (u ← units; unit_rows u). split; [| by vm_compute].
  exact (proj1 (proj1 (flatten_rows_per_group units Hne) Hok)).
Defined.

(** C1 as stated fails: a group without options, or without profiles, does
    not contribute zero rows; the whole flattening raises [AttributeError],
    also for the groups that have both. *)
Lemma flatten_empty_group_raises :
  let full := {| options := [sample_option 10 []]; profiles := [sample_profile 1] |} in
  let no_options := {| options := []; profiles := [sample_profile 1] |} in
  let no_profiles := {| options := [sample_option 10 []]; profiles := [] |} in
  flatten [sample_unit [full; no_options]] = Raise AttributeError ∧
  flatten [sample_unit [full; no_profiles]] = Raise AttributeError ∧
  ¬ (∃ rows, flatten [sample_unit [full; no_options]] = Ok rows ∧
             length rows = (1 * 1 + 0 * 1)%nat).
Proof.
  split; [by vm_compute | split; [by vm_compute |]].
  intros (rows & Hrows & _). by vm_compute in Hrows.
Qed.

(** ** The name columns *)

Lemma apply_plus_apply_rows (f1 f2 : Row → result (list string)) army_df :
  army_df ≠ [] →
  apply_plus_apply f1 f2 army_df
  = left ← mapM f1 army_df; right ← mapM f2 army_df; Ok (zip_with app left right).
Proof. by destruct army_df. Qed.

Lemma apply_plus_apply_Ok (f1 f2 : Row → result (list string)) army_df col :
  apply_plus_apply f1 f2 army_df = Ok col ↔
  army_df ≠ [] ∧
  Forall2 (λ row names, ∃ a b, f1 row = Ok a ∧ f2 row = Ok b ∧ names = a ++ b)
          army_df col.
Proof.
  destruct (decide (army_df = [])) as [->|Hne]; [by split; [| intros [? _]] |].
  rewrite apply_plus_apply_rows by done. rewrite bind_Ok. split.
  - intros (left & Hl%mapM_Ok & (right & Hr%mapM_Ok & [= <-])%bind_Ok).
    split; [done |]. clear Hne.
    revert right Hr. induction Hl as [|row a df left Ha _ IH]; intros right Hr.
    + inversion Hr. constructor.
    + inversion Hr as [|? b ? right' Hb Hr']; subst. simpl.
      constructor; [by exists a, b | by apply IH].
  - intros [_ Hall]. clear Hne.
    induction Hall as [|row names df col (a & b & Ha & Hb & ->) _ IH].
    + exists []. split; [done |]. apply bind_Ok. by exists [].
    + destruct IH as (left & Hl & (right & Hr & [= <-])%bind_Ok).
      exists (a :: left). simpl. rewrite Ha, Hl. simpl. split; [done |].
      rewrite Hb, Hr. done.
Qed.

(** C2. Each of the [skills], [weapons] and [equipment] columns holds, row
    by row, the names resolved from the profile's list followed by the names
    resolved from the option's list: a pass returns a column exactly when
    the frame has rows and both resolutions succeed on every row, and the
    column is their concatenation in (profile, option) order. *)
Theorem name_columns_are_profile_then_option (order : set_order)
    (army_df : list Row) (skills_df weapons_df equipment_df extras_df : list CatalogEntry) :
  (∀ skills,
     convert_skill_ids order army_df skills_df extras_df = Ok skills ↔
     army_df ≠ [] ∧
     Forall2 (λ row names, ∃ a b,
                id_to_name_cell order skills_df extras_df (skills_id (row_profile row)) = Ok a ∧
                id_to_name_cell order skills_df extras_df (option_skills (row_option row)) = Ok b ∧
                names = a ++ b) army_df skills) ∧
  (∀ weapons,
     convert_weapon_ids order army_df weapons_df extras_df = Ok weapons ↔
     army_df ≠ [] ∧
     Forall2 (λ row names, ∃ a b,
                id_to_name_cell order weapons_df extras_df (weapons_id (row_profile row)) = Ok a ∧
                id_to_name_cell order weapons_df extras_df (option_weapons (row_option row)) = Ok b ∧
                names = a ++ b) army_df weapons) ∧
  (∀ equipment,
     convert_equipment_ids order army_df equipment_df extras_df = Ok equipment ↔
     army_df ≠ [] ∧
     Forall2 (λ row names, ∃ a b,
                id_to_name_cell order equipment_df extras_df (equip_id (row_profile row)) = Ok a ∧
                id_to_name_cell order equipment_df extras_df (option_equipment (row_option row)) = Ok b ∧
                names = a ++ b) army_df equipment).
Proof.
  split; [| split]; intros names.
  - unfold convert_skill_ids. apply apply_plus_apply_Ok.
  - unfold convert_weapon_ids. apply apply_plus_apply_Ok.
  - unfold convert_equipment_ids. apply apply_plus_apply_Ok.
Qed.

Lemma name_columns_are_profile_then_option_witness :
  let row : Row :=
    (sample_unit [], {| options := []; profiles := [] |},
     sample_option 10 [ref_of [("id", PyInt 6)]], sample_profile 2) in
  convert_skill_ids insertion_order [row] [cat 5 "Camouflage"; cat 6 "Mimetism"] [cat 1 "AP"]
  = Ok [["Camouflage"; "Mimetism"]] ∧
  convert_weapon_ids insertion_order [row] [cat 9 "Rifle"] [cat 1 "AP"]
  = Ok [["Rifle(AP)"]].
Proof.
  intros row.
  destruct (name_columns_are_profile_then_option insertion_order [row]
              [cat 5 "Camouflage"; cat 6 "Mimetism"] [cat 9 "Rifle"] [] [cat 1 "AP"])
    as (Hskills & Hweapons & _).
  split.
  - apply Hskills. split; [done |]. constructor; [| constructor].
    exists ["Camouflage"], ["Mimetism"]. repeat split; by vm_compute.
  - apply Hweapons. split; [done |]. constructor; [| constructor].
    exists ["Rifle(AP)"], []. repeat split; by vm_compute.
Defined.

(** ** Category codes *)



(** ** Order counters *)

Lemma foldl_add_shift (a : Z) (xs : list Z) :
  foldl Z.add a xs = a + foldl Z.add 0 xs.
Proof.
  revert a. induction xs as [|x xs IH]; intros a; simpl; [lia |].
  rewrite (IH (a + x)), (IH (0 + x)). lia.
Qed.

Lemma get_orders_of_type_spec orders_list order_type :
  get_orders_of_type orders_list order_type = sum_of_matching orders_list order_type.
Proof.
  unfold get_orders_of_type, py_sum.
  induction orders_list as [|order rest IH]; [done |]. simpl.
  destruct (String.eqb_spec (o_type order) order_type) as [Heq|Hne].
  - rewrite decide_True by done. simpl. by rewrite foldl_add_shift, IH.
  - rewrite decide_False by done. by rewrite IH.
Qed.







(** ** The swc column *)














Lemma to_lower_underscore (c : ascii) : to_lower c = "_"%char → c = "_"%char.
Proof. by destruct c as [[] [] [] [] [] [] [] []]. Qed.

Lemma string_of_list_ascii_inj (l k : list ascii) :
  String.string_of_list_ascii l = String.string_of_list_ascii k → l = k.
Proof.
  intros H. by rewrite <-(String.list_ascii_of_string_of_list_ascii l), H,
    String.list_ascii_of_string_of_list_ascii.
Qed.




















(** * Further properties of the code *)

(** ** [id_to_name] on concatenated lists *)

Lemma id_to_name_loop_acc (order : set_order) lookup extras_lookup id_list full_names :
  id_to_name_loop order lookup extras_lookup id_list full_names
  = names ← id_to_name_loop order lookup extras_lookup id_list [];
    Ok (full_names ++ names).
Proof.
  revert full_names. induction id_list as [|e rest IH]; intros acc.
  - simpl. by rewrite app_nil_r.
  - cbn [id_to_name_loop]. destruct (truthy e); [| apply IH].
    destruct (full_name order lookup extras_lookup e) as [n|err]; simpl; [| done].
    rewrite (IH (acc ++ [n])), (IH [n]).
    destruct (id_to_name_loop order lookup extras_lookup rest []); simpl; [| done].
    by rewrite <-app_assoc.
Qed.

Lemma id_to_name_loop_app (order : set_order) lookup extras_lookup l1 l2 full_names :
  id_to_name_loop order lookup extras_lookup (l1 ++ l2) full_names
  = names ← id_to_name_loop order lookup extras_lookup l1 full_names;
    id_to_name_loop order lookup extras_lookup l2 names.
Proof.
  revert full_names. induction l1 as [|e rest IH]; intros acc; [done |].
  rewrite <-app_comm_cons. cbn [id_to_name_loop]. destruct (truthy e); [| apply IH].
  destruct (full_name order lookup extras_lookup e) as [n|err]; simpl; [| done].
  apply IH.
Qed.

(** X1. Resolving a concatenation is resolving the two lists in turn and
    concatenating the names; when the first list fails its exception is the
    one raised and the second list is not looked at. A cell of a name column
    is therefore the resolution of the profile's list followed by the
    option's list. *)
Theorem id_to_name_app (order : set_order) (lookup extras_lookup : list CatalogEntry)
    (l1 l2 : list entry) :
  id_to_name order lookup extras_lookup (l1 ++ l2)
  = a ← id_to_name order lookup extras_lookup l1;
    b ← id_to_name order lookup extras_lookup l2;
    Ok (a ++ b).
Proof.
  unfold id_to_name. rewrite id_to_name_loop_app.
  destruct (id_to_name_loop order lookup extras_lookup l1 []) as [a|err]; simpl; [| done].
  apply id_to_name_loop_acc.
Qed.

(** ** The name a reference resolves to *)

(** X2. When the catalog lists the id of a reference, on one row or on
    several, always under the same name, the reference resolves to that
    name followed by its extras, whatever the iteration order of the set of
    matches. *)
Theorem full_name_of_single_name (order : set_order)
    (lookup extras_lookup : list CatalogEntry) (d : gmap string pyval) (z : Z) (n : string) :
  d !! "id" = Some (PyInt z) →
  (∃ c, c ∈ lookup ∧ entry_id c = z) →
  (∀ c, c ∈ lookup → entry_id c = z → entry_name c = n) →
  full_name order lookup extras_lookup (Some d)
  = extras ← extras_of extras_lookup (Some d); Ok (n +:+ String.concat "" extras).
Proof.
  intros Hid (c0 & Hc0 & Hz0) Hall.
  assert (lookup ≠ []) as Hne by (intros ->; by apply elem_of_nil in Hc0).
  unfold full_name. rewrite (matching_names_int _ _ _ z) by done.
  rewrite (order_constant order _ n).
  - simpl. by destruct (extras_of extras_lookup (Some d)).
  - rewrite <-(Hall c0 Hc0 Hz0). apply list_elem_of_fmap_2.
    by apply list_elem_of_filter.
  - intros y (c & -> & [Hz Hc]%list_elem_of_filter)%list_elem_of_fmap. by apply Hall.
Qed.

Lemma full_name_of_single_name_witness :
  let d : gmap string pyval := list_to_map [("id", PyInt 9); ("extra", PyList [1])] in
  let lookup := [cat 9 "Rifle"; cat 5 "Pistol"; cat 9 "Rifle"] in
  d !! "id" = Some (PyInt 9) ∧
  (∃ c, c ∈ lookup ∧ entry_id c = 9) ∧
  (∀ c, c ∈ lookup → entry_id c = 9 → entry_name c = "Rifle") ∧
  full_name reversed_order lookup [cat 1 "AP"] (Some d) = Ok "Rifle(AP)".
Proof.
  intros d lookup.
  assert (d !! "id" = Some (PyInt 9)) as Hid by (by vm_compute).
  assert (∃ c, c ∈ lookup ∧ entry_id c = 9) as Hex
    by (exists (cat 9 "Rifle"); split; [left | done]).
  assert (∀ c, c ∈ lookup → entry_id c = 9 → entry_name c = "Rifle") as Hall.
  { apply (Forall_forall (λ c, entry_id c = 9 → entry_name c = "Rifle")).
    by apply (bool_decide_unpack _). }
  split; [exact Hid | split; [exact Hex | split; [exact Hall |]]].
  exact (full_name_of_single_name reversed_order lookup [cat 1 "AP"] d 9 "Rifle"
           Hid Hex Hall).
Defined.

(** X3. The suffixes of a reference depend on which ids its [extra] list
    holds, not on their order or on repetitions: two [extra] lists with the
    same elements give the same result against any extras catalog. *)
Theorem extras_of_same_ids (extras_lookup : list CatalogEntry)
    (d d' : gmap string pyval) (l l' : list Z) :
  d !! "extra" = Some (PyList l) →
  d' !! "extra" = Some (PyList l') →
  (∀ x, x ∈ l ↔ x ∈ l') →
  extras_of extras_lookup (Some d) = extras_of extras_lookup (Some d').
Proof.
  intros Hd Hd' Hsame.
  destruct (decide (extras_lookup = [])) as [->|Hne].
  - destruct l as [|x l], l' as [|x' l'].
    + by rewrite (extras_of_falsy _ d (PyList [])), (extras_of_falsy _ d' (PyList [])).
    + exfalso. eapply elem_of_nil, (proj2 (Hsame x')). left.
    + exfalso. eapply elem_of_nil, (proj1 (Hsame x)). left.
    + unfold extras_of, contains, getitem. simpl.
      rewrite !bool_decide_eq_true_2 by (rewrite ?Hd, ?Hd'; eauto).
      by rewrite Hd, Hd'.
  - rewrite (extras_of_list _ d l), (extras_of_list _ d' l') by done.
    do 2 f_equal. apply list_filter_iff. intros c. apply Hsame.
Qed.

Lemma extras_of_same_ids_witness :
  let d := list_to_map [("id", PyInt 9); ("extra", PyList [2; 1])] in
  let d' := list_to_map [("id", PyInt 9); ("extra", PyList [1; 2; 2; 1])] in
  d !! "extra" = Some (PyList [2; 1]) ∧
  d' !! "extra" = Some (PyList [1; 2; 2; 1]) ∧
  (∀ x : Z, x ∈ [2; 1] ↔ x ∈ [1; 2; 2; 1]) ∧
  extras_of [cat 1 "AP"; cat 2 "Shock"] (Some d)
  = extras_of [cat 1 "AP"; cat 2 "Shock"] (Some d').
Proof.
  intros d d'.
  assert (d !! "extra" = Some (PyList [2; 1])) as Hd by (by vm_compute).
  assert (d' !! "extra" = Some (PyList [1; 2; 2; 1])) as Hd' by (by vm_compute).
  assert (∀ x : Z, x ∈ [2; 1] ↔ x ∈ [1; 2; 2; 1]) as Hsame
    by (intros x; rewrite !elem_of_cons, !elem_of_nil; tauto).
  split; [exact Hd | split; [exact Hd' | split; [exact Hsame |]]].
  exact (extras_of_same_ids [cat 1 "AP"; cat 2 "Shock"] d d' _ _ Hd Hd' Hsame).
Defined.

(** ** Order counters *)

Lemma sum_of_matching_app l1 l2 category :
  sum_of_matching (l1 ++ l2) category
  = sum_of_matching l1 category + sum_of_matching l2 category.
Proof. induction l1 as [|o l1 IH]; simpl; [done |]. rewrite IH. lia. Qed.

(** X4. The count of a type over two lists put together is the sum of the
    two counts, and it does not depend on the order of the entries. *)
Theorem get_orders_of_type_additive :
  (∀ l1 l2 order_type,
     get_orders_of_type (l1 ++ l2) order_type
     = get_orders_of_type l1 order_type + get_orders_of_type l2 order_type) ∧
  (∀ l l' order_type,
     l ≡ₚ l' → get_orders_of_type l order_type = get_orders_of_type l' order_type).
Proof.
  split.
  - intros l1 l2 t. rewrite !get_orders_of_type_spec. apply sum_of_matching_app.
  - intros l l' t Hperm. rewrite !get_orders_of_type_spec.
    induction Hperm as [|o l l' _ IH|o1 o2 l|l1 l2 l3 _ IH1 _ IH2]; simpl.
    + done.
    + by rewrite IH.
    + lia.
    + by rewrite IH1.
Qed.

(** X5. No entry is counted twice: the four order counts of a list add up
    to the total of the entries whose type is one of the four, and the
    entries of any other type are left out of every column. *)
Theorem order_counts_partition (orders_list : list Order) :
  get_orders_of_type orders_list "REGULAR"
  + get_orders_of_type orders_list "IRREGULAR"
  + get_orders_of_type orders_list "IMPETUOUS"
  + get_orders_of_type orders_list "LIEUTENANT"
  = py_sum (o_total <$> filter counted_type orders_list).
Proof.
  rewrite !get_orders_of_type_spec. unfold py_sum.
  induction orders_list as [|o rest IH]; [done |].
  rewrite filter_cons. cbn [sum_of_matching].
  destruct (decide (counted_type o)) as [Hc|Hc].
  - rewrite fmap_cons. simpl. rewrite foldl_add_shift, <-IH.
    unfold counted_type in Hc. rewrite !elem_of_cons, elem_of_nil in Hc.
    destruct Hc as [->|[->|[->|[->|[]]]]];
      repeat (first [rewrite decide_True by done | rewrite decide_False by done]); lia.
  - rewrite <-IH. unfold counted_type in Hc. rewrite !elem_of_cons in Hc.
    rewrite !decide_False by (intros Heq; apply Hc; rewrite Heq; intuition). lia.
Qed.

(** ** Category labels *)

Lemma type_label_Ok_inv code label :
  type_label code = Ok label → 1 ≤ code ≤ 7.
Proof.
  intros Hl. destruct (decide (1 ≤ code ≤ 7)) as [|Hout]; [done |]. exfalso.
  revert Hl. unfold type_label, type_id_to_name.
  rewrite !lookup_insert_ne by lia. by rewrite lookup_empty.
Qed.

(** X6. Two different codes never get the same label: the label of a row
    tells its category code. *)
Theorem type_label_injective (code1 code2 : Z) (label : string) :
  type_label code1 = Ok label → type_label code2 = Ok label → code1 = code2.
Proof.
  intros H1 H2.
  pose proof (type_label_Ok_inv _ _ H1) as R1.
  pose proof (type_label_Ok_inv _ _ H2) as R2.
  assert (code1 = 1 ∨ code1 = 2 ∨ code1 = 3 ∨ code1 = 4 ∨ code1 = 5 ∨ code1 = 6 ∨ code1 = 7)
    as C1 by lia.
  assert (code2 = 1 ∨ code2 = 2 ∨ code2 = 3 ∨ code2 = 4 ∨ code2 = 5 ∨ code2 = 6 ∨ code2 = 7)
    as C2 by lia.
  clear R1 R2.
  destruct C1 as [->|[->|[->|[->|[->|[->| ->]]]]]];
    vm_compute in H1; injection H1 as <-;
    destruct C2 as [->|[->|[->|[->|[->|[->| ->]]]]]];
    vm_compute in H2; first [done | discriminate H2].
Qed.

Lemma type_label_injective_witness :
  type_label 4 = Ok "TAG" ∧ type_label (2 + 2) = Ok "TAG" ∧ 4 = 2 + 2.
Proof.
  assert (type_label 4 = Ok "TAG") as H1 by (by vm_compute).
  assert (type_label (2 + 2) = Ok "TAG") as H2 by (by vm_compute).
  split; [exact H1 | split; [exact H2 |]].
  exact (type_label_injective 4 (2 + 2) "TAG" H1 H2).
Defined.

(** ** Flattening *)

Lemma unit_rows_nonempty (u : Unit) : unit_ok u → unit_rows u ≠ [].
Proof.
  intros [Hg Hok]. unfold unit_rows, group_rows.
  destruct (profileGroups u) as [|g gs]; [done |].
  apply Forall_cons in Hok as [[Ho Hp] _]. rewrite bind_cons.
  destruct (options g) as [|o os]; [done |]. rewrite bind_cons.
  destruct (profiles g) as [|p ps]; [done |]. by rewrite bind_cons.
Qed.

Lemma flatten_Ok_inv (units : list Unit) (rows : list Row) :
  flatten units = Ok rows →
  units ≠ [] ∧ Forall unit_ok units ∧ rows = (u ← units; unit_rows u).
Proof.
  intros Hrows. destruct (decide (units = [])) as [->|Hne]; [done |].
  destruct (decide (Forall unit_ok units)) as [Hok|Hnot].
  - rewrite flatten_Ok in Hrows by done. by injection Hrows as <-.
  - by rewrite flatten_Raise in Hrows.
Qed.

(** X7. A flattening that returns never returns an empty table: every
    unit of the input has at least one row, so there are at least as many
    rows as units. *)
Theorem flatten_keeps_every_unit (units : list Unit) (rows : list Row) :
  flatten units = Ok rows →
  rows ≠ [] ∧
  (length units ≤ length rows)%nat ∧
  (∀ u, u ∈ units → ∃ row, row ∈ rows ∧ row_unit row = u).
Proof.
  intros (Hne & Hok & ->)%flatten_Ok_inv.
  assert (∀ u, u ∈ units → ∃ row, row ∈ unit_rows u ∧ row_unit row = u) as Hrow.
  { intros u Hu. rewrite Forall_forall in Hok.
    pose proof (unit_rows_nonempty u (Hok u Hu)) as Hu'.
    destruct (unit_rows u) as [|row rs] eqn:Hrs; [done |].
    exists row. split; [left |].
    apply (unit_rows_same_group u). rewrite Hrs. left. }
  split; [| split].
  - destruct units as [|u us]; [done |].
    destruct (Hrow u) as (row & Hin & _); [left |].
    intros Hnil. rewrite bind_cons in Hnil. apply app_eq_nil in Hnil as [Hnil _].
    rewrite Hnil in Hin. by apply elem_of_nil in Hin.
  - clear Hne Hrow. induction Hok as [|u us Hu _ IH]; [done |].
    rewrite bind_cons, length_app. simpl.
    pose proof (unit_rows_nonempty u Hu). destruct (unit_rows u); [done |]. simpl. lia.
  - intros u Hu. destruct (Hrow u Hu) as (row & Hin & Heq).
    exists row. split; [| done]. apply list_elem_of_bind. by exists u.
Qed.

Lemma flatten_keeps_every_unit_witness :
  let g := {| options := [sample_option 10 []]; profiles := [sample_profile 1] |} in
  let units := [sample_unit [g]; sample_unit [g; g]] in
  ∃ rows, flatten units = Ok rows ∧ (length units ≤ length rows)%nat.
Proof.
  intros g units.
  assert (flatten units = Ok (u ← units; unit_rows u)) as Hflat
    by (apply flatten_Ok; [done | repeat first [done | split | constructor]]).
  exists (u ← units; unit_rows u). split; [exact Hflat |].
  exact (proj1 (proj2 (flatten_keeps_every_unit units _ Hflat))).
Defined.

(** X8. Units are flattened independently of each other: the table of two
    non-empty unit lists put together is the table of the first followed by
    the table of the second, and it fails as soon as either of them does. *)
Theorem flatten_app (units1 units2 : list Unit) :
  units1 ≠ [] → units2 ≠ [] →
  flatten (units1 ++ units2)
  = rows1 ← flatten units1; rows2 ← flatten units2; Ok (rows1 ++ rows2).
Proof.
  intros H1 H2.
  assert (units1 ++ units2 ≠ []) as H12 by (by destruct units1).
  destruct (decide (Forall unit_ok units1)) as [Hok1|Hnot1].
  - rewrite (flatten_Ok units1) by done. simpl.
    destruct (decide (Forall unit_ok units2)) as [Hok2|Hnot2].
    + rewrite (flatten_Ok units2), flatten_Ok by (done || by apply Forall_app).
      simpl. by rewrite bind_app.
    + rewrite (flatten_Raise units2), flatten_Raise; [done | done | | done | done].
      by intros [_ ?]%Forall_app.
  - rewrite (flatten_Raise units1), flatten_Raise; [done | done | | done | done].
    by intros [? _]%Forall_app.
Qed.

Lemma flatten_app_witness :
  let g := {| options := [sample_option 10 []]; profiles := [sample_profile 1] |} in
  let no_options := {| options := []; profiles := [sample_profile 1] |} in
  [sample_unit [g]] ≠ [] ∧ [sample_unit [no_options]] ≠ [] ∧
  flatten ([sample_unit [g]] ++ [sample_unit [no_options]]) = Raise AttributeError.
Proof.
  intros g no_options.
  assert ([sample_unit [g]] ≠ []) as H1 by done.
  assert ([sample_unit [no_options]] ≠ []) as H2 by done.
  split; [exact H1 | split; [exact H2 |]].
  rewrite (flatten_app [sample_unit [g]] [sample_unit [no_options]] H1 H2).
  by vm_compute.
Defined.

(** ** Masks over the resolved columns *)

Lemma py_in_spec (value : string) (names : list string) :
  py_in value names = true ↔ value ∈ names.
Proof.
  unfold py_in. rewrite existsb_exists. split.
  - intros (x & Hx%list_elem_of_In & Heq%String.eqb_eq). by subst.
  - intros Hin. exists value. split; [by apply list_elem_of_In | apply String.eqb_refl].
Qed.

Lemma id_to_name_elem (order : set_order) lookup extras_lookup id_list names value :
  id_to_name order lookup extras_lookup id_list = Ok names →
  value ∈ names ↔
  ∃ e, e ∈ id_list ∧ truthy e ∧ full_name order lookup extras_lookup e = Ok value.
Proof.
  intros Hrun%id_to_name_Ok. split.
  - intros (i & Hi)%list_elem_of_lookup.
    destruct (Forall2_lookup_r _ _ _ _ _ Hrun Hi) as (e & He & Hfn).
    apply list_elem_of_lookup_2, list_elem_of_filter in He as [Ht He]. by exists e.
  - intros (e & He & Ht & Hfn).
    assert (e ∈ filter (λ e, truthy e) id_list) as (i & Hi)%list_elem_of_lookup
      by (by apply list_elem_of_filter).
    destruct (Forall2_lookup_l _ _ _ _ _ Hrun Hi) as (n & Hn & Hfn').
    rewrite Hfn in Hfn'. injection Hfn' as ->. by eapply list_elem_of_lookup_2.
Qed.

(** X9. On a frame whose weapons column is the one [convert_weapon_ids]
    built, [has_weapon value] is true at a row exactly when some reference
    in use of the row's profile or option composes to [value], character
    for character. *)
Theorem has_weapon_after_convert {R : Type} (weapons_column : R → list string)
    (self : list R) (order : set_order) (army_df : list Row)
    (weapons_df extras_df : list CatalogEntry) (value : string) (i : nat) (row : Row) :
  convert_weapon_ids order army_df weapons_df extras_df = Ok (weapons_column <$> self) →
  army_df !! i = Some row →
  has_weapon weapons_column value self !! i = Some true ↔
  ∃ e, e ∈ default [] (weapons_id (row_profile row))
             ++ default [] (option_weapons (row_option row)) ∧
       truthy e ∧ full_name order weapons_df extras_df e = Ok value.
Proof.
  intros [_ Hcol]%apply_plus_apply_Ok Hrow.
  destruct (Forall2_lookup_l _ _ _ _ _ Hcol Hrow) as (names & Hnames & a & b & Ha & Hb & ->).
  rewrite list_lookup_fmap in Hnames.
  destruct (self !! i) as [x|] eqn:Hx; [| done]. injection Hnames as Hnames.
  unfold has_weapon, has. rewrite list_lookup_fmap, Hx. simpl.
  destruct (weapons_id (row_profile row)) as [lp|]; [| done].
  destruct (option_weapons (row_option row)) as [lo|]; [| done]. simpl in *.
  assert (id_to_name order weapons_df extras_df (lp ++ lo) = Ok (a ++ b)) as Hab.
  { pose proof (id_to_name_loop_app order weapons_df extras_df lp lo []) as Happ.
    unfold id_to_name in *. rewrite Happ, Ha. simpl.
    by rewrite id_to_name_loop_acc, Hb. }
  rewrite <-(id_to_name_elem _ _ _ _ _ value Hab), <-py_in_spec, Hnames.
  split; [by intros [= ->] | by intros ->].
Qed.

Lemma has_weapon_after_convert_witness :
  let row : Row :=
    (sample_unit [], {| options := []; profiles := [] |},
     sample_option 10 [], sample_profile 2) in
  convert_weapon_ids insertion_order [row] [cat 9 "Rifle"] [cat 1 "AP"]
  = Ok (snd <$> [("FUSILIERS", ["Rifle(AP)"])]) ∧
  [row] !! 0%nat = Some row ∧
  has_weapon snd "Rifle(AP)" [("FUSILIERS", ["Rifle(AP)"])] !! 0%nat = Some true.
Proof.
  intros row.
  assert (convert_weapon_ids insertion_order [row] [cat 9 "Rifle"] [cat 1 "AP"]
          = Ok (snd <$> [("FUSILIERS", ["Rifle(AP)"])])) as Hcol by (by vm_compute).
  assert ([row] !! 0%nat = Some row) as Hrow by done.
  split; [exact Hcol | split; [exact Hrow |]].
  apply (has_weapon_after_convert snd _ insertion_order [row] [cat 9 "Rifle"]
           [cat 1 "AP"] "Rifle(AP)" 0 row Hcol Hrow).
  exists (ref_of [("id", PyInt 9); ("extra", PyList [1])]).
  split; [left | split; by vm_compute].
Defined.

Lemma append_cons_neq (base : string) (c : ascii) (rest : string) :
  base +:+ String c rest ≠ base.
Proof.
  induction base as [|a base IH]; [done |].
  change (String a (base +:+ String c rest) ≠ String a base). by intros [= ?].
Qed.

Lemma extras_of_paren (extras_lookup : list CatalogEntry) e sfx :
  extras_of extras_lookup e = Ok sfx →
  Forall (λ s, ∃ x, s = "(" +:+ x +:+ ")") sfx.
Proof.
  unfold extras_of, contains, getitem.
  destruct e as [d|]; simpl; [| done].
  destruct (d !! "extra") as [v|] eqn:Hv; simpl.
  - destruct (truthy_val v); [| intros [= <-]; constructor].
    destruct (column_id extras_lookup) as [col|]; simpl; [| done].
    destruct (isin col v) as [mask|]; simpl; [| done].
    intros [= <-]. apply Forall_fmap, Forall_forall. intros x _. by exists x.
  - intros [= <-]. constructor.
Qed.

(** X10. A reference that carries at least one matched extra is never
    listed under its bare catalog name: the composed name differs from the
    base name, so [has_weapon] with the base name does not select a row on
    account of that reference. *)
Theorem suffixed_name_is_not_the_base_name (order : set_order)
    (lookup extras_lookup : list CatalogEntry) (e : entry)
    (base : string) (others : list string) (s : string) (sfx : list string) :
  matching_names order lookup e = Ok (base :: others) →
  extras_of extras_lookup e = Ok (s :: sfx) →
  ∃ n, full_name order lookup extras_lookup e = Ok n ∧
       n ≠ base ∧
       has_weapon (λ names : list string, names) base [[n]] = [false].
Proof.
  intros Hbase Hx. eexists. split; [by eapply full_name_compose |].
  apply extras_of_paren, Forall_cons in Hx as [(x & ->) _].
  assert (∃ rest, String.concat "" (("(" +:+ x +:+ ")") :: sfx) = String "(" rest)
    as (rest & ->).
  { destruct sfx as [|s' sfx]; simpl; eauto. }
  pose proof (append_cons_neq base "(" rest) as Hneq.
  split; [done |].
  unfold has_weapon, has, py_in. simpl.
  destruct (String.eqb_spec base (base +:+ String "(" rest)) as [Heq|]; [| done].
  by destruct Hneq.
Qed.

Lemma suffixed_name_is_not_the_base_name_witness :
  let e := ref_of [("id", PyInt 9); ("extra", PyList [1])] in
  matching_names insertion_order [cat 9 "Rifle"] e = Ok ["Rifle"] ∧
  extras_of [cat 1 "AP"] e = Ok ["(AP)"] ∧
  ∃ n, full_name insertion_order [cat 9 "Rifle"] [cat 1 "AP"] e = Ok n ∧ n ≠ "Rifle".
Proof.
  intros e.
  assert (matching_names insertion_order [cat 9 "Rifle"] e = Ok ["Rifle"]) as Hb
    by (by vm_compute).
  assert (extras_of [cat 1 "AP"] e = Ok ["(AP)"]) as Hx by (by vm_compute).
  split; [exact Hb | split; [exact Hx |]].
  destruct (suffixed_name_is_not_the_base_name insertion_order [cat 9 "Rifle"]
              [cat 1 "AP"] e "Rifle" [] "(AP)" [] Hb Hx) as (n & Hn & Hneq & _).
  by exists n.
Defined.

(** ** Rows without a name *)

Lemma discard_unnamed_rows_app {P} (df1 df2 : list (option string * P)) :
  discard_unnamed_rows (df1 ++ df2) = discard_unnamed_rows df1 ++ discard_unnamed_rows df2.
Proof.
  unfold discard_unnamed_rows, drop_empty_names, blank_unnamed.
  by rewrite fmap_app, filter_app.
Qed.

Lemma discard_unnamed_rows_unit (u : Unit) (rows : list Row) :
  Forall (λ row, row_unit row = u) rows →
  discard_unnamed_rows ((λ row, (unit_name (row_unit row), row)) <$> rows)
  = match unit_name u with
    | Some name => if decide (name = "") then [] else (λ row, (name, Kept row)) <$> rows
    | None => []
    end.
Proof.
  unfold discard_unnamed_rows, drop_empty_names, blank_unnamed.
  induction 1 as [|row rows Hrow _ IH].
  - destruct (unit_name u); [by case_decide | done].
  - rewrite !fmap_cons, filter_cons, IH. simpl. rewrite Hrow.
    destruct (unit_name u) as [name|]; simpl.
    + destruct (decide (name = "")) as [Hname|Hname].
      * rewrite decide_False; [done |]. intros Hne. by apply Hne.
      * by rewrite decide_True.
    + done.
Qed.

(** X11. Under pandas 1.x and 2.x, where line 342 upcasts a column
    rather than refusing the assignment, after the name filter the table
    holds exactly the rows of the units that have a non-empty name, none of
    them overwritten and in their order: the rows of a unit without a name,
    or with the name [''], are all dropped. *)
Theorem discard_unnamed_rows_after_flatten (units : list Unit) (rows : list Row) :
  flatten units = Ok rows →
  discard_unnamed_rows ((λ row, (unit_name (row_unit row), row)) <$> rows)
  = u ← units; named_rows u.
Proof.
  intros (_ & _ & ->)%flatten_Ok_inv.
  induction units as [|u units IH]; [done |].
  rewrite !bind_cons, fmap_app, discard_unnamed_rows_app, IH. f_equal.
  unfold named_rows. apply discard_unnamed_rows_unit.
  apply Forall_forall. intros row Hrow. by apply unit_rows_same_group in Hrow as [? _].
Qed.

Lemma discard_unnamed_rows_after_flatten_witness :
  let g := {| options := [sample_option 10 []]; profiles := [sample_profile 1] |} in
  let unnamed := {| unit_name := None; profileGroups := [g; g] |} in
  let units := [unnamed; sample_unit [g]] in
  ∃ rows, flatten units = Ok rows ∧
          length rows = 3%nat ∧
          length (discard_unnamed_rows ((λ row, (unit_name (row_unit row), row)) <$> rows))
          = 1%nat.
Proof.
  intros g unnamed units.
  assert (flatten units = Ok (u ← units; unit_rows u)) as Hflat
    by (apply flatten_Ok; [done | repeat first [done | split | constructor]]).
  exists (u ← units; unit_rows u). split; [exact Hflat |]. split; [reflexivity |].
  rewrite (discard_unnamed_rows_after_flatten units _ Hflat). reflexivity.
Defined.

(** ** Downloads *)

Section DownloadFacts.
Variable urlopen : string → result string.

Lemma download_file_fetched (file_key body : string) (files : gmap string string) :
  fetched urlopen file_key = Some body →
  download_file urlopen file_key get_file_list files
  = (<[file_key +:+ ".json" := body]> files, Ok true).
Proof.
  unfold fetched, download_file.
  destruct (get_file_list !! file_key) as [url|]; [| done].
  destruct (urlopen url); [| done]. intros [= ->]. by rewrite insert_delete_eq.
Qed.

Lemma store_cons (key : string) (keys : list string) (files : gmap string string) :
  store urlopen (key :: keys) files
  = store urlopen keys
      (match fetched urlopen key with
       | Some body => <[key +:+ ".json" := body]> files
       | None => files
       end).
Proof. reflexivity. Qed.

Lemma store_snoc (keys : list string) (key : string) (files : gmap string string) :
  store urlopen (keys ++ [key]) files
  = match fetched urlopen key with
    | Some body => <[key +:+ ".json" := body]> (store urlopen keys files)
    | None => store urlopen keys files
    end.
Proof. unfold store. by rewrite foldl_snoc. Qed.

Lemma download_each_fetched (armies : list string) (files : gmap string string)
    (out : list string) :
  Forall (λ key, is_Some (fetched urlopen key)) armies →
  download_each urlopen armies files out
  = ({| folder := Some (store urlopen armies files);
        stdout := out ++ ((λ army, "Downloading " +:+ army) <$> armies) |}, Ok ()).
Proof.
  intros Hall. revert files out.
  induction Hall as [|army rest [body Hbody] _ IH]; intros files out.
  - cbn [download_each]. by rewrite fmap_nil, app_nil_r.
  - cbn [download_each]. rewrite (download_file_fetched army body) by exact Hbody.
    rewrite IH, fmap_cons, <-app_assoc, store_cons, Hbody. reflexivity.
Qed.

Lemma download_each_app (pre post : list string) (files : gmap string string)
    (out : list string) :
  Forall (λ key, is_Some (fetched urlopen key)) pre →
  download_each urlopen (pre ++ post) files out
  = download_each urlopen post (store urlopen pre files)
      (out ++ ((λ army, "Downloading " +:+ army) <$> pre)).
Proof.
  intros Hall. revert files out.
  induction Hall as [|army rest [body Hbody] _ IH]; intros files out.
  - rewrite app_nil_l, fmap_nil, app_nil_r. reflexivity.
  - rewrite <-app_comm_cons. cbn [download_each].
    rewrite (download_file_fetched army body) by exact Hbody.
    rewrite IH, fmap_cons, <-app_assoc, store_cons, Hbody. reflexivity.
Qed.

End DownloadFacts.

(** X12. A name that is no key of the file list does not end
    [download_armies] quietly: once the metadata and the armies listed
    before it are downloaded and written, line 138 raises [TypeError]
    ([str + dict_keys]); no message about the name is printed and the
    armies listed after it are not downloaded. *)
Theorem download_armies_unknown_name (urlopen : string → result string) (w : world)
    (before after : list string) (unknown : string) :
  Forall (λ key, is_Some (fetched urlopen key)) ("metadata" :: before) →
  get_file_list !! unknown = None →
  download_armies urlopen (inr (before ++ unknown :: after)) w
  = ({| folder := Some (store urlopen ("metadata" :: before) (verify_file_folder w));
        stdout := stdout w ++ ["Downloading metadata"]
                  ++ ((λ army, "Downloading " +:+ army) <$> before ++ [unknown]) |},
     Raise TypeError).
Proof.
  intros [[body Hmeta] Hbefore]%Forall_cons Hunknown.
  unfold download_armies.
  rewrite (download_file_fetched urlopen "metadata" body) by exact Hmeta.
  rewrite download_each_app by exact Hbefore. cbn [download_each].
  unfold download_file at 1. rewrite Hunknown.
  rewrite fmap_app, !app_assoc, store_cons, Hmeta. reflexivity.
Qed.

Lemma download_armies_unknown_name_witness :
  let urlopen := λ url : string, Ok ("body of " +:+ url) in
  let w := {| folder := None; stdout := [] |} in
  Forall (λ key, is_Some (fetched urlopen key)) ["metadata"; "haqqislam"] ∧
  get_file_list !! "haqislam" = None ∧
  (download_armies urlopen (inr (["haqqislam"] ++ "haqislam" :: ["nomads"])) w).2
  = Raise TypeError.
Proof.
  intros urlopen w.
  assert (Forall (λ key, is_Some (fetched urlopen key)) ["metadata"; "haqqislam"]) as Hall
    by (apply (bool_decide_unpack _); vm_compute; exact I).
  assert (get_file_list !! "haqislam" = None) as Hun by (by vm_compute).
  split; [exact Hall | split; [exact Hun |]].
  by rewrite (download_armies_unknown_name urlopen w ["haqqislam"] ["nomads"] "haqislam"
                Hall Hun).
Defined.

(** X13. When every name is a key of the file list and every URL answers,
    [download_armies] returns after writing the metadata first and then
    each army in the order given, one line printed per download; a single
    name passed as a string is downloaded like the one-element list. *)
Theorem download_armies_all_known (urlopen : string → result string) (w : world)
    (armies : string + list string) :
  let names := match armies with inl army => [army] | inr armies => armies end in
  Forall (λ key, is_Some (fetched urlopen key)) ("metadata" :: names) →
  download_armies urlopen armies w
  = ({| folder := Some (store urlopen ("metadata" :: names) (verify_file_folder w));
        stdout := stdout w ++ ["Downloading metadata"]
                  ++ ((λ army, "Downloading " +:+ army) <$> names) |},
     Ok ()).
Proof.
  intros names [[body Hmeta] Hnames]%Forall_cons.
  unfold download_armies.
  rewrite (download_file_fetched urlopen "metadata" body) by exact Hmeta.
  fold names. rewrite download_each_fetched by exact Hnames.
  rewrite !app_assoc, store_cons, Hmeta. reflexivity.
Qed.

Lemma download_armies_all_known_witness :
  let urlopen := λ url : string, Ok ("body of " +:+ url) in
  let w := {| folder := None; stdout := [] |} in
  Forall (λ key, is_Some (fetched urlopen key)) ["metadata"; "tohaa"] ∧
  (download_armies urlopen (inl "tohaa") w).2 = Ok ().
Proof.
  intros urlopen w.
  assert (Forall (λ key, is_Some (fetched urlopen key)) ["metadata"; "tohaa"]) as Hall
    by (apply (bool_decide_unpack _); vm_compute; exact I).
  split; [exact Hall |].
  by rewrite (download_armies_all_known urlopen w (inl "tohaa") Hall).
Defined.

(** X14. A download that fails destroys the copy it was to replace: when
    the URL of a known army raises, the exception leaves [download_armies]
    with the old file of that army removed and nothing written in its
    place, the earlier downloads kept and the later ones not started. *)
Theorem download_armies_failed_fetch (urlopen : string → result string) (w : world)
    (before after : list string) (army url : string) (e : pyexn) :
  Forall (λ key, is_Some (fetched urlopen key)) ("metadata" :: before) →
  get_file_list !! army = Some url →
  urlopen url = Raise e →
  download_armies urlopen (inr (before ++ army :: after)) w
  = ({| folder := Some (delete (army +:+ ".json")
                          (store urlopen ("metadata" :: before) (verify_file_folder w)));
        stdout := stdout w ++ ["Downloading metadata"]
                  ++ ((λ army, "Downloading " +:+ army) <$> before ++ [army]) |},
     Raise e).
Proof.
  intros [[body Hmeta] Hbefore]%Forall_cons Hurl He.
  unfold download_armies.
  rewrite (download_file_fetched urlopen "metadata" body) by exact Hmeta.
  rewrite download_each_app by exact Hbefore. cbn [download_each].
  unfold download_file at 1. rewrite Hurl, He.
  rewrite fmap_app, !app_assoc, store_cons, Hmeta. reflexivity.
Qed.

Lemma download_armies_failed_fetch_witness :
  let url := "https://api.corvusbelli.com/army/units/en/801" in
  let urlopen := λ u : string, if String.eqb u url then Raise ValueError else Ok "{}" in
  let w := {| folder := Some {[ "tohaa.json" := "old" ]}; stdout := [] |} in
  Forall (λ key, is_Some (fetched urlopen key)) ["metadata"] ∧
  get_file_list !! "tohaa" = Some url ∧
  urlopen url = Raise ValueError ∧
  (∃ files, folder (download_armies urlopen (inr ([] ++ "tohaa" :: [])) w).1 = Some files ∧
            files !! "tohaa.json" = None).
Proof.
  intros url urlopen w.
  assert (Forall (λ key, is_Some (fetched urlopen key)) ["metadata"]) as Hall
    by (apply (bool_decide_unpack _); vm_compute; exact I).
  assert (get_file_list !! "tohaa" = Some url) as Hurl by (by vm_compute).
  assert (urlopen url = Raise ValueError) as He by (by vm_compute).
  split; [exact Hall | split; [exact Hurl | split; [exact He |]]].
  rewrite (download_armies_failed_fetch urlopen w [] [] "tohaa" url ValueError Hall Hurl He).
  eexists. split; [done |]. apply lookup_delete_eq.
Defined.

(** ** File names and keys *)

Lemma has_slash_append (s t : string) :
  has_slash (s +:+ t) = has_slash s || has_slash t.
Proof.
  induction s as [|c s IH]; [done |].
  change (String c s +:+ t) with (String c (s +:+ t)).
  cbn [has_slash]. by rewrite IH, orb_assoc.
Qed.

Lemma basename_no_slash (file : string) :
  has_slash file = false → basename file = file.
Proof.
  destruct file as [|c rest]; [done |].
  cbn [has_slash basename]. intros [Hc Hrest]%orb_false_elim.
  by rewrite Hrest, Hc.
Qed.

Lemma basename_join (folder file : string) :
  has_slash file = false → basename (folder +:+ "/" +:+ file) = file.
Proof.
  intros Hfile. induction folder as [|c folder IH].
  - change ("" +:+ "/" +:+ file) with (String "/" file).
    cbn [basename]. by rewrite Hfile.
  - change (String c folder +:+ "/" +:+ file)
      with (String c (folder +:+ "/" +:+ file)).
    cbn [basename]. rewrite has_slash_append.
    change ("/" +:+ file) with (String "/" file). cbn [has_slash].
    rewrite orb_true_r. exact IH.
Qed.

Lemma first_part_append_json (key : string) :
  has_dot key = false → first_part (key +:+ ".json") = key.
Proof.
  induction key as [|c key IH]; [done |].
  change (String c key +:+ ".json") with (String c (key +:+ ".json")).
  cbn [has_dot first_part]. intros [Hc Hkey]%orb_false_elim.
  rewrite Hc. f_equal. by apply IH.
Qed.

Lemma var_name_append_json (key : string) :
  has_dot key = false → has_slash key = false → var_name (key +:+ ".json") = key.
Proof.
  intros Hdot Hslash. unfold var_name.
  rewrite basename_no_slash by (by rewrite has_slash_append, Hslash).
  by apply first_part_append_json.
Qed.

(** X15. With POSIX paths, the name a file is loaded under is the key it
    was downloaded for: for a key with no dot and no ['/'] - every key of
    the file list is one - [var_name] of the file name [key + '.json'], and
    of the path [folder + '/' + key + '.json'] that [download_file] writes
    it to, is [key] again. *)
Theorem var_name_of_downloaded_file :
  (∀ key, has_dot key = false → has_slash key = false →
          var_name (key +:+ ".json") = key) ∧
  (∀ folder key, has_dot key = false → has_slash key = false →
                 var_name (folder +:+ "/" +:+ key +:+ ".json") = key) ∧
  (∀ key, is_Some (get_file_list !! key) → var_name (key +:+ ".json") = key).
Proof.
  split; [apply var_name_append_json | split].
  - intros folder key Hdot Hslash. unfold var_name.
    rewrite basename_join by (by rewrite has_slash_append, Hslash).
    by apply first_part_append_json.
  - intros key [url Hkey].
    assert (map_Forall (λ k _, has_dot k = false ∧ has_slash k = false) get_file_list)
      as Hall by (apply (bool_decide_unpack _); vm_compute; exact I).
    destruct (Hall key url Hkey) as [Hdot Hslash].
    by apply var_name_append_json.
Qed.

(** ** Missing keys *)

Lemma mapM_Forall_ok {A B} (f : A → result B) (l : list A) :
  Forall (λ x, is_ok (f x) = true) l → ∃ k, mapM f l = Ok k.
Proof.
  induction 1 as [|x l Hx _ [k Hk]]; [by exists [] |].
  destruct (f x) as [y|] eqn:Hy; [| done].
  exists (y :: k). cbn [mapM]. rewrite Hy. simpl. by rewrite Hk.
Qed.

Lemma mapM_first_Raise {A B} (f : A → result B) (before after : list A) (x : A) e :
  Forall (λ x, is_ok (f x) = true) before →
  f x = Raise e →
  mapM f (before ++ x :: after) = Raise e.
Proof.
  intros [k Hk]%mapM_Forall_ok Hx. rewrite mapM_app, Hk. cbn [mapM]. simpl.
  by rewrite Hx.
Qed.

Lemma mapM_only_Raise {A B} (f : A → result B) (l : list A) e :
  (∀ x e', f x = Raise e' → e' = e) →
  ¬ Forall (λ x, is_ok (f x) = true) l →
  mapM f l = Raise e.
Proof.
  intros Honly. induction l as [|x l IH]; intros Hnot; [by destruct Hnot |].
  cbn [mapM]. destruct (f x) as [y|e'] eqn:Hx; simpl.
  - rewrite IH; [done |]. intros Hl. apply Hnot. constructor; [by rewrite Hx | done].
  - by rewrite (Honly x e' Hx).
Qed.

(** X16. An option must carry its [weapons] key even when it grants no
    weapon: when the key is absent from an option, and every list read
    before it resolves, [convert_weapon_ids] raises [TypeError] instead of
    treating the option as granting nothing. *)
Theorem convert_weapon_ids_missing_key (order : set_order)
    (before after : list Row) (row : Row) (weapons_df extras_df : list CatalogEntry) :
  Forall (λ r, is_ok (id_to_name_cell order weapons_df extras_df
                        (weapons_id (row_profile r))) = true)
         (before ++ row :: after) →
  Forall (λ r, is_ok (id_to_name_cell order weapons_df extras_df
                        (option_weapons (row_option r))) = true) before →
  option_weapons (row_option row) = None →
  convert_weapon_ids order (before ++ row :: after) weapons_df extras_df = Raise TypeError.
Proof.
  intros [left Hleft]%mapM_Forall_ok Hbefore Hnone.
  unfold convert_weapon_ids. rewrite apply_plus_apply_rows by (by destruct before).
  rewrite Hleft. simpl.
  rewrite (mapM_first_Raise _ before after row TypeError); [done | done |].
  by rewrite Hnone.
Qed.

Lemma convert_weapon_ids_missing_key_witness :
  let no_weapons :=
    {| points := SInt 10; swc := SInt 0; option_skills := Some [];
       orders := None; option_weapons := None; option_equipment := None |} in
  let row : Row :=
    (sample_unit [], {| options := []; profiles := [] |}, no_weapons, sample_profile 2) in
  Forall (λ r, is_ok (id_to_name_cell insertion_order [cat 9 "Rifle"] [cat 1 "AP"]
                        (weapons_id (row_profile r))) = true) ([] ++ row :: []) ∧
  option_weapons (row_option row) = None ∧
  convert_weapon_ids insertion_order ([] ++ row :: []) [cat 9 "Rifle"] [cat 1 "AP"]
  = Raise TypeError.
Proof.
  intros no_weapons row.
  assert (Forall (λ r, is_ok (id_to_name_cell insertion_order [cat 9 "Rifle"] [cat 1 "AP"]
                                (weapons_id (row_profile r))) = true) ([] ++ row :: []))
    as Hprofiles by (constructor; [by vm_compute | constructor]).
  split; [exact Hprofiles | split; [reflexivity |]].
  exact (convert_weapon_ids_missing_key insertion_order [] [] row [cat 9 "Rifle"]
           [cat 1 "AP"] Hprofiles (List.Forall_nil _) eq_refl).
Defined.

Lemma order_column_Raise (order_type : string) (df : list Row) :
  ¬ Forall (λ row, is_Some (orders (row_option row))) df →
  order_column order_type df = Raise TypeError.
Proof.
  intros Hnot. unfold order_column. apply mapM_only_Raise.
  - intros row e'. by destruct (orders (row_option row)); [| intros [= <-]].
  - intros Hall. apply Hnot. eapply Forall_impl; [exact Hall |].
    intros row. simpl. destruct (orders (row_option row)); [eauto | done].
Qed.

(** X17. As soon as one option of the frame lacks its [orders] key,
    [add_order_columns] builds none of the four columns and raises
    [TypeError], whatever the other rows hold. The order entries that are
    present are well formed here, each with its [type] and its [total]. *)
Theorem add_order_columns_missing_key (df : list Row) :
  ¬ Forall (λ row, is_Some (orders (row_option row))) df →
  add_order_columns df = Raise TypeError.
Proof.
  intros Hnot. unfold add_order_columns. cbn [mapM].
  by rewrite !order_column_Raise.
Qed.

Lemma add_order_columns_missing_key_witness :
  let no_orders :=
    {| points := SInt 10; swc := SInt 0; option_skills := Some [];
       orders := None; option_weapons := Some []; option_equipment := Some [] |} in
  let g := {| options := []; profiles := [] |} in
  let df : list Row :=
    [(sample_unit [], g, sample_option 10 [], sample_profile 2);
     (sample_unit [], g, no_orders, sample_profile 2)] in
  ¬ Forall (λ row, is_Some (orders (row_option row))) df ∧
  add_order_columns df = Raise TypeError.
Proof.
  intros no_orders g df.
  assert (¬ Forall (λ row, is_Some (orders (row_option row))) df) as Hnot.
  { intros [_ [[x Hx] _]%Forall_cons]%Forall_cons. discriminate Hx. }
  split; [exact Hnot |].
  exact (add_order_columns_missing_key df Hnot).
Defined.


